(** * sample_uniform.py: uniform sampling of transition counts

    A shallow embedding of [projects/sampleCounts/sample_uniform.py].  The
    script reads a sparse transition matrix, turns every row into a jump
    table (or loads the pickled tables from [<matrix>.jumps]), and then writes
    one count matrix per trial.

    Conventions of the embedding:
    - the matrix [T] is held the way [T.tolil()] holds it: one list of
      [(column, value)] entries per row, columns ascending;
    - matrix values and jump weights are rationals (the script's float64
      arithmetic is never inspected by the driver beyond [!= 0]);
    - the dictionaries [jumps] and the sparse accumulator [C] are finite maps;
      state and column indices are natural numbers, counts are integers, and
      a pickled cache holds a dictionary of [(possible_j, jprobs)] pairs,
      whatever matrix it was written for;
    - an index or key that is not there raises ([IndexError], [KeyError]),
      a file operation that fails raises [IOError], and nothing is caught,
      as in the script;
    - the script is a computation in a monad that threads the shared random
      source, collects the observable events (stdout lines, file reads and
      writes) in order, and stops at [sys.exit] or an uncaught exception;
    - [draw_index] comes from [HelperTools], which is not part of the
      sources at hand: the driver is embedded over an arbitrary sampler, and
      [WeightedSampler.draw] models it from the design document. *)

From Stdlib Require Import ZArith QArith Qround Lqa List String Ascii Lia.
From stdpp Require Import gmap strings list fin_maps pretty sorting.

Close Scope Q_scope.

(** ** Sparse matrices *)

(** One stored entry of a LIL row: the column and the value held there. *)
Definition entry : Type := nat * Q.

(** [scipy.sparse.lil_matrix] after [tolil()]: [shape[0]] is the number of
    row lists, [shape[1]] is kept explicitly. *)
Record lil_matrix : Type := LilMatrix {
  ncols : nat;
  lil_rows : list (list entry)
}.

Definition nrows (T : lil_matrix) : nat := length (lil_rows T).
Definition shape (T : lil_matrix) : nat * nat := (nrows T, ncols T).

(** The storage invariant of a LIL row: columns strictly ascending and
    inside [lo, hi). *)
Fixpoint wf_row (lo hi : nat) (r : list entry) : bool :=
  match r with
  | [] => true
  | (c, _) :: r' => (lo <=? c) && (c <? hi) && wf_row (S c) hi r'
  end.

Definition wf_lil (T : lil_matrix) : bool :=
  forallb (wf_row 0 (ncols T)) (lil_rows T).

Definition is_nonzero (v : Q) : bool := negb (Qeq_bool v 0).

(** [T[i,:]] for [i] in [range(T.shape[0])]. *)
Definition getrow (T : lil_matrix) (i : nat) : list entry :=
  default [] (lil_rows T !! i).

(** [row.nonzero()[1]]: the columns of the stored entries whose value is
    [!= 0], in storage order. *)
Definition nonzero (r : list entry) : list nat :=
  (filter (λ e : entry, is_nonzero e.2 = true) r).*1.

(** [row[0, j]]: the stored value at column [j], zero where nothing is
    stored. *)
Fixpoint getitem (r : list entry) (j : nat) : Q :=
  match r with
  | [] => 0%Q
  | (c, v) :: r' => if decide (c = j) then v else getitem r' j
  end.

(** [T[i, j]] on the whole matrix. *)
Definition matrix_get (T : lil_matrix) (i j : nat) : Q :=
  getitem (getrow T i) j.

(** ** Jump tables *)

(** [(possible_j, jprobs)] *)
Definition jump_table : Type := list nat * list Q.

(** Lines 81-85 for one state: the pair stored at [jumps[i]]. *)
Definition build (T : lil_matrix) (i : nat) : jump_table :=
  let possible_j := nonzero (getrow T i) in
  let jprobs := map (getitem (getrow T i)) possible_j in
  (possible_j, jprobs).

(** ** The count accumulator [C] *)

(** [scipy.sparse.lil_matrix((n, n))]: the shape and the stored counts. *)
Record count_matrix : Type := CountMatrix {
  cshape : nat * nat;
  counts : gmap (nat * nat) Z
}.

Definition new_counts (n m : nat) : count_matrix :=
  {| cshape := (n, m); counts := ∅ |}.

(** [C[i,j]] as a number: absent entries read as zero. *)
Definition count_at (C : count_matrix) (i j : nat) : Z :=
  default 0%Z (counts C !! (i, j)).

(** The sum of all stored counts. *)
Definition total_count (C : count_matrix) : Z :=
  map_fold (λ _ v acc, (v + acc)%Z) 0%Z (counts C).

(** ** Observable behaviour *)

(** The exceptions that can end a run; [DegenerateDistributionError] is
    the one the modelled sampler raises. *)
Inductive exn : Type :=
  | ValueError
  | IndexError
  | KeyError
  | IOError
  | DegenerateDistributionError
  | OtherError (name : string).

(** How a run stops early: [sys.exit(code)] or an uncaught exception. *)
Inductive halt : Type :=
  | Exit (code : Z)
  | Raise (e : exn).

Inductive result (A : Type) : Type :=
  | Ok (a : A)
  | Halt (h : halt).
Arguments Ok {A} a.
Arguments Halt {A} h.

(** What a [print] statement shows. *)
Inductive message : Type :=
  | MsgUsage
  | MsgMatrix (T : lil_matrix)
  | MsgCantFind (fn : string)
  | MsgMInfo (repr : string)
  | MsgReadingJumps (fn : string)
  | MsgReadDone
  | MsgMakingJumps
  | MsgJump (i : nat) (jt : jump_table)
  | MsgPickling (fn : string)
  | MsgDone
  | MsgSampled (sampled total : Z).

Inductive event : Type :=
  | Print (m : message)
  | MMRead (fn : string)
  | LoadMicrostates (fn : string)
  | PickleLoad (fn : string)
  | PickleDump (fn : string) (jumps : gmap nat jump_table)
  | MMWrite (fn : string) (C : count_matrix).

(** The shared random source: an unbounded tape of raw values and the
    number of values consumed so far. *)
Record rng : Type := Rng {
  tape : nat → Q;
  pos : nat
}.

(** What the script finds around it.  No file is read after the script has
    written one, so the file system is a fixed function of the path. *)
Record world : Type := World {
  argv : list string;                                   (* sys.argv *)
  path_exists : string → bool;                          (* os.path.exists *)
  mm_file : string → option lil_matrix;                 (* mmread(fn).tolil() *)
  microstate_file : string → option string;             (* MicrostateInfo(fn) *)
  jumps_file : string → option (gmap nat jump_table);   (* pickle.load *)
  writable : string → bool;                             (* open(fn,'w') works *)
  seed : rng
}.

(** ** The monad of the script *)

(** How a piece of the script ends: its result, the events it produced in
    order, and the random source as it leaves it. *)
Record outcome (A : Type) : Type := Outcome {
  res : result A;
  out : list event;
  final : rng
}.
Arguments Outcome {A} res out final.
Arguments res {A} o.
Arguments out {A} o.
Arguments final {A} o.

Definition M (A : Type) : Type := rng → outcome A.

Definition ret {A} (a : A) : M A := λ g, Outcome (Ok a) [] g.

Definition bind {A B} (m : M A) (k : A → M B) : M B :=
  λ g, let o := m g in
       match res o with
       | Ok a => let o' := k a (final o) in
                 Outcome (res o') (out o ++ out o') (final o')
       | Halt h => Outcome (Halt h) (out o) (final o)
       end.

Definition raise {A} (e : exn) : M A := λ g, Outcome (Halt (Raise e)) [] g.
Definition sys_exit {A} (code : Z) : M A :=
  λ g, Outcome (Halt (Exit code)) [] g.

Definition emit (e : event) : M unit := λ g, Outcome (Ok tt) [e] g.

Definition print (m : message) : M unit := emit (Print m).

Declare Scope script_scope.
Delimit Scope script_scope with script.
Notation "'let*' x ':=' m 'in' k" := (bind m (λ x, k))
  (at level 10, x pattern, m at level 100, k at level 200) : script_scope.
Notation "m '>>' k" := (bind m (λ _, k))
  (at level 100, k at level 200, right associativity) : script_scope.
Local Open Scope script_scope.

(** [for x in l: acc = body(acc, x)] *)
Fixpoint foldM {A B} (body : B → A → M B) (l : list A) (acc : B) : M B :=
  match l with
  | [] => ret acc
  | x :: l' => let* acc' := body acc x in foldM body l' acc'
  end.

(** [range(n)] for a Python integer [n]: empty when [n <= 0]. *)
Definition range (n : Z) : list nat := seq 0 (Z.to_nat n).

(** [l[i]] on a list or array, for a non-negative index. *)
Definition index {A} (l : list A) (i : nat) : M A :=
  match l !! i with
  | Some x => ret x
  | None => raise IndexError
  end.

(** [d[k]] on a dictionary. *)
Definition dict_get {A} (d : gmap nat A) (k : nat) : M A :=
  match d !! k with
  | Some x => ret x
  | None => raise KeyError
  end.

(** A call into the file system that raises [IOError] when it fails. *)
Definition io {A} (r : option A) : M A :=
  match r with
  | Some x => ret x
  | None => raise IOError
  end.

(** ** Command-line integers: [int(s)] *)

Definition is_space (c : ascii) : bool :=
  let n := nat_of_ascii c in (n =? 32) || ((9 <=? n) && (n <=? 13)).

Definition digit_value (c : ascii) : option Z :=
  let n := nat_of_ascii c in
  if (48 <=? n) && (n <=? 57) then Some (Z.of_nat (n - 48)) else None.

Fixpoint lstrip (s : string) : string :=
  match s with
  | String c s' => if is_space c then lstrip s' else s
  | EmptyString => EmptyString
  end.

Definition strip (s : string) : string :=
  String.rev (lstrip (String.rev (lstrip s))).

Fixpoint digits (s : string) (acc : Z) : option Z :=
  match s with
  | EmptyString => Some acc
  | String c s' =>
      match digit_value c with
      | Some d => digits s' (10 * acc + d)%Z
      | None => None
      end
  end.

Definition unsigned (s : string) : option Z :=
  match s with
  | EmptyString => None
  | _ => digits s 0%Z
  end.

(** Base-10 [int(s)]: surrounding blanks, an optional sign, then digits. *)
Definition py_int (s : string) : option Z :=
  match strip s with
  | String "-" r => Z.opp <$> unsigned r
  | String "+" r => unsigned r
  | t => unsigned t
  end.

Definition int (s : string) : M Z :=
  match py_int s with
  | Some n => ret n
  | None => raise ValueError
  end.

(** ** The script *)

Section Script.

(** [HelperTools.draw_index]: given the weights it answers with an index
    or raises, and touches nothing but the shared random source. *)
Variable draw_index : list Q → rng → result nat * rng.

Definition call_draw_index (jprobs : list Q) : M nat :=
  λ g, let '(r, g') := draw_index jprobs g in Outcome r [] g'.

(** Lines 68-73: the cache file is there. *)
Definition load_jumps (w : world) (jumpFn : string)
  : M (gmap nat jump_table) :=
  print (MsgReadingJumps jumpFn) >>
  emit (PickleLoad jumpFn) >>
  let* jumps := io (jumps_file w jumpFn) in
  print MsgReadDone >>
  ret jumps.

(** Lines 81-87: the table of state [i] goes into [jumps], with a
    progress line every hundredth state. *)
Definition build_step (T : lil_matrix) (jumps : gmap nat jump_table)
    (i : nat) : M (gmap nat jump_table) :=
  let jumps := <[i := build T i]> jumps in
  (if (i mod 100 =? 0)%nat
   then let* jt := dict_get jumps i in print (MsgJump i jt)
   else ret tt) >>
  ret jumps.

(** Lines 76-87: one jump table per state. *)
Definition build_all (T : lil_matrix) (NumStates : nat)
  : M (gmap nat jump_table) :=
  foldM (build_step T) (seq 0 NumStates) ∅.

(** Lines 89-93: pickle the tables next to the matrix. *)
Definition save_jumps (w : world) (jumpFn : string)
    (jumps : gmap nat jump_table) : M unit :=
  print (MsgPickling jumpFn) >>
  (if writable w jumpFn then emit (PickleDump jumpFn jumps)
   else raise IOError) >>
  print MsgDone.

(** Lines 67-93. *)
Definition get_jumps (w : world) (T : lil_matrix) (NumStates : nat)
    (jumpFn : string) : M (gmap nat jump_table) :=
  if path_exists w jumpFn then load_jumps w jumpFn
  else
    print MsgMakingJumps >>
    let* jumps := build_all T NumStates in
    save_jumps w jumpFn jumps >>
    ret jumps.

(** [C[i,j] += 1] *)
Definition increment (C : count_matrix) (i j : nat) : M count_matrix :=
  if decide (i < (cshape C).1 ∧ j < (cshape C).2)
  then ret {| cshape := cshape C;
              counts := <[(i, j) := (count_at C i j + 1)%Z]> (counts C) |}
  else raise IndexError.

(** Lines 111-112: one draw from state [i], recorded in [C]. *)
Definition draw_step (i : nat) (possible_j : list nat) (jprobs : list Q)
    (C : count_matrix) : M count_matrix :=
  let* k := call_draw_index jprobs in
  let* j := index possible_j k in
  increment C i j.

(** Lines 110-112: [n] draws from state [i]. *)
Definition sample_state (i : nat) (possible_j : list nat) (jprobs : list Q)
    (n : Z) (C : count_matrix) : M count_matrix :=
  foldM (λ C _, draw_step i possible_j jprobs C) (range n) C.

(** The outcomes of [n] rounds of line 111 as a sequence: the
    destinations drawn, in order. *)
Definition draws (possible_j : list nat) (jprobs : list Q) (n : Z)
  : M (list nat) :=
  foldM (λ js _,
           let* k := call_draw_index jprobs in
           let* j := index possible_j k in
           ret (js ++ [j]))
        (range n) [].

(** Lines 106-112: the samples of state [i]. *)
Definition sample_from (jumps : gmap nat jump_table)
    (NumSamplesPerState : list Z) (C : count_matrix) (i : nat)
  : M count_matrix :=
  let* jt := dict_get jumps i in
  let possible_j := jt.1 in
  let jprobs := jt.2 in
  let* n := index NumSamplesPerState i in
  sample_state i possible_j jprobs n C.

(** Lines 100-112: one pass over all states. *)
Definition sample_all (jumps : gmap nat jump_table)
    (NumSamplesPerState : list Z) (NumStates : nat) (C : count_matrix)
  : M count_matrix :=
  foldM (sample_from jumps NumSamplesPerState) (seq 0 NumStates) C.

(** ['tCounts.uniform.%s.%d.%d.mtx' % (outName, nsamples, trial)] *)
Definition out_name (outName : string) (nsamples : Z) (trial : nat)
  : string :=
  "tCounts.uniform." +:+ outName +:+ "." +:+ pretty nsamples +:+ "."
    +:+ pretty (Z.of_nat trial) +:+ ".mtx".

Definition mmwrite (w : world) (fn : string) (C : count_matrix) : M unit :=
  if writable w fn then emit (MMWrite fn C) else raise IOError.

(** [sum(NumSamplesPerState)] *)
Definition sum (l : list Z) : Z := foldr Z.add 0%Z l.

(** Lines 98-117: the body of the trial loop; [C] and [TotalCounts] are
    the variables that live across its iterations. *)
Definition trial_body (w : world) (jumps : gmap nat jump_table)
    (NumSamplesPerState : list Z) (NumStates : nat)
    (outName : string) (nsamples : Z)
    (vars : count_matrix * Z) (trial : nat) : M (count_matrix * Z) :=
  let '(C, TotalCounts) := vars in
  let* C := sample_all jumps NumSamplesPerState NumStates C in
  let TotalCounts := (TotalCounts + sum NumSamplesPerState)%Z in
  let* n0 := index NumSamplesPerState 0 in
  print (MsgSampled (Z.of_nat trial * n0) TotalCounts) >>
  mmwrite w (out_name outName nsamples trial) C >>
  ret (C, TotalCounts).

(** Lines 95-119. *)
Definition trials (w : world) (jumps : gmap nat jump_table)
    (NumStates : nat) (outName : string) (nsamples NumTrials : Z)
  : M unit :=
  let NumSamplesPerState := replicate NumStates nsamples in
  let C := new_counts NumStates NumStates in
  let TotalCounts := 0%Z in
  foldM (trial_body w jumps NumSamplesPerState NumStates outName nsamples)
        (range NumTrials) (C, TotalCounts) >>
  ret tt.

(** Lines 45-50. *)
Definition read_matrix (w : world) (microTFn : string) : M lil_matrix :=
  if path_exists w microTFn then
    emit (MMRead microTFn) >>
    let* T := io (mm_file w microTFn) in
    print (MsgMatrix T) >>
    ret T
  else
    print (MsgCantFind microTFn) >>
    sys_exit 1.

(** Line 54 and 56. *)
Definition read_microstates (w : world) (microstatesFn : string) : M unit :=
  emit (LoadMicrostates microstatesFn) >>
  let* mInfo := io (microstate_file w microstatesFn) in
  print (MsgMInfo mInfo).

(** The whole script. *)
Definition main (w : world) : M unit :=
  if decide (length (argv w) < 6) then
    print MsgUsage >>
    sys_exit 1
  else
    let* microTFn := index (argv w) 1 in
    let* microstatesFn := index (argv w) 2 in
    let* a3 := index (argv w) 3 in
    let* nsamples := int a3 in
    let* a4 := index (argv w) 4 in
    let* ntrials := int a4 in
    let* outName := index (argv w) 5 in
    let* T := read_matrix w microTFn in
    read_microstates w microstatesFn >>
    let NumStates := (shape T).1 in
    let jumpFn := microTFn +:+ ".jumps" in
    let* jumps := get_jumps w T NumStates jumpFn in
    trials w jumps NumStates outName nsamples ntrials.

Definition run (w : world) : outcome unit := main w (seed w).

End Script.

(** The count matrices handed to [mmwrite], with their file names, in
    order. *)
Definition written (evs : list event) : list (string * count_matrix) :=
  omap (λ e, match e with MMWrite fn C => Some (fn, C) | _ => None end) evs.

(** The files read so far ([mmread], [MicrostateInfo], [pickle.load]). *)
Definition reads (evs : list event) : list string :=
  omap (λ e, match e with
             | MMRead fn | LoadMicrostates fn | PickleLoad fn => Some fn
             | _ => None
             end) evs.

(** ** The weighted sampler *)

Module WeightedSampler.

(** [sum(weights)] *)
Definition total (weights : list Q) : Q := foldr Qplus 0%Q weights.

(** The raw value of the random source brought into [0, 1). *)
Definition frac (q : Q) : Q := (q - inject_Z (Qfloor q))%Q.

(** A uniform value in [0, total_weight). *)
Definition uniform (total_weight : Q) (g : rng) : Q * rng :=
  ((frac (tape g (pos g)) * total_weight)%Q,
   {| tape := tape g; pos := S (pos g) |}).

(** The smallest index [k] such that [acc + weights[0] + ... + weights[k]]
    exceeds [u]; the length of the list when no prefix does. *)
Fixpoint first_exceeding (u acc : Q) (weights : list Q) : nat :=
  match weights with
  | [] => 0
  | w :: weights' =>
      let acc' := (acc + w)%Q in
      if Qle_bool acc' u then S (first_exceeding u acc' weights') else 0
  end.

(** Modelled from the spec: [HelperTools.draw_index] is not among the
    sources; this is [WeightedSampler.draw] of the design document: it
    fails with [DegenerateDistributionError] if the sum is zero or the
    sequence is empty, and otherwise takes a uniform [u] in
    [0, total_weight) and returns the smallest index whose cumulative sum
    exceeds [u]. *)
Definition draw (weights : list Q) (g : rng) : result nat * rng :=
  match weights with
  | [] => (Halt (Raise DegenerateDistributionError), g)
  | _ =>
      if Qeq_bool (total weights) 0
      then (Halt (Raise DegenerateDistributionError), g)
      else let '(u, g') := uniform (total weights) g in
           (Ok (first_exceeding u 0 weights), g')
  end.

End WeightedSampler.

(** ** Notions used by the statements *)

(** [C'] holds at least the counts of [C], and more only where [S] allows. *)
Definition grows_within (S : nat → nat → Prop) (C C' : count_matrix) : Prop :=
  cshape C' = cshape C ∧
  ∀ a b, (count_at C a b ≤ count_at C' a b)%Z ∧
         ((count_at C a b < count_at C' a b)%Z → S a b).

(** [(a, b)] is a transition the jump tables allow: [b] is among the
    destinations of state [a]. *)
Definition supported_by (jumps : gmap nat jump_table) (a b : nat) : Prop :=
  ∃ jt, jumps !! a = Some jt ∧ b ∈ jt.1.

(** Each element of the list is related to the one before it, the first to
    [a]. *)
Fixpoint chained {A} (R : A → A → Prop) (a : A) (l : list A) : Prop :=
  match l with
  | [] => True
  | b :: l' => R a b ∧ chained R b l'
  end.

(** One pass of lines 100-112 over all states turns [C] into [C']: the
    counts only grow, only on transitions of the jump tables, and by
    [d] in total. *)
Definition one_pass (jumps : gmap nat jump_table) (d : Z)
    (C C' : count_matrix) : Prop :=
  grows_within (supported_by jumps) C C' ∧
  total_count C' = (total_count C + d)%Z.

(** Where the jump tables of a run come from: the cache file when it is
    there, the rows of [T] otherwise. *)
Definition jumps_from (w : world) (T : lil_matrix) (jumpFn : string)
    (jumps : gmap nat jump_table) : Prop :=
  if path_exists w jumpFn then jumps_file w jumpFn = Some jumps
  else writable w jumpFn = true ∧
       ∀ i, jumps !! i = if decide (i < nrows T) then Some (build T i) else None.

(** The arguments after the script's name. *)
Definition arguments (w : world) : list string := drop 1 (argv w).

(** ** Small worlds to run the script in *)

(** A directory that holds the matrix [T] as [T.mtx], a microstate file,
    and the cache [T.mtx.jumps] when [cache] is given; files can be written
    when [can_write] holds. *)
Definition small_world (args : list string) (T : lil_matrix)
    (cache : option (gmap nat jump_table)) (can_write : bool)
    (tp : nat → Q) : world :=
  {| argv := "sample.py" :: args;
     path_exists := λ fn,
       bool_decide (fn = "T.mtx") ||
       (bool_decide (fn = "T.mtx.jumps") && bool_decide (is_Some cache));
     mm_file := λ fn, if bool_decide (fn = "T.mtx") then Some T else None;
     microstate_file := λ _, Some "mInfo";
     jumps_file := λ fn, if bool_decide (fn = "T.mtx.jumps") then cache else None;
     writable := λ _, can_write;
     seed := {| tape := tp; pos := 0 |} |}.

(** The deterministic three-state cycle [[0,1,0],[0,0,1],[1,0,0]]. *)
Definition cycle3 : lil_matrix :=
  {| ncols := 3; lil_rows := [[(1, 1%Q)]; [(2, 1%Q)]; [(0, 1%Q)]] |}.

(** The one-state chain [[1]]. *)
Definition loop1 : lil_matrix :=
  {| ncols := 1; lil_rows := [[(0, 1%Q)]] |}.

(** The two-state identity [[1,0],[0,1]]. *)
Definition identity2 : lil_matrix :=
  {| ncols := 2; lil_rows := [[(0, 1%Q)]; [(1, 1%Q)]] |}.

(** A random source that always yields one half. *)
Definition halves : nat → Q := λ _, (1 # 2)%Q.

(** ** The jump table as the design document words it *)

(** The nonzero column indices of row [i], by increasing column. *)
Definition nonzero_columns (T : lil_matrix) (i : nat) : list nat :=
  filter (λ j, is_nonzero (matrix_get T i j) = true) (seq 0 (ncols T)).

(** [JumpTableBuilder.build]: the nonzero column indices of row [state]
    and the corresponding values. *)
Definition spec_build (T : lil_matrix) (state : nat) : jump_table :=
  (nonzero_columns T state, matrix_get T state <$> nonzero_columns T state).

(** The contract of the weighted draw that the driver relies on: for
    weights of positive sum it answers with an index inside the weight
    sequence. *)
Definition sampler_in_bounds
    (draw_index : list Q → rng → result nat * rng) : Prop :=
  ∀ weights g,
    (0 < WeightedSampler.total weights)%Q →
    ∃ k g', draw_index weights g = (Ok k, g') ∧ k < length weights.

(** Jump tables of another matrix, left behind in the cache file: state 0
    jumps to 1 and state 1 to 0. *)
Definition swapped_jumps : gmap nat jump_table :=
  {[0 := ([1], [1%Q]); 1 := ([0], [1%Q])]}.

(** The count matrix with [n] at [(0,1)], [(1,2)] and [(2,0)] and nothing
    stored elsewhere. *)
Definition cycle3_counts (n : Z) : count_matrix :=
  {| cshape := (3, 3);
     counts := {[(0, 1) := n; (1, 2) := n; (2, 0) := n]} |}.

(** The directory of [small_world] without a cache file, where every file
    can be written except [T.mtx.jumps]. *)
Definition cache_unwritable_world (args : list string) (T : lil_matrix)
    (tp : nat → Q) : world :=
  {| argv := "sample.py" :: args;
     path_exists := λ fn, bool_decide (fn = "T.mtx");
     mm_file := λ fn, if bool_decide (fn = "T.mtx") then Some T else None;
     microstate_file := λ _, Some "mInfo";
     jumps_file := λ _, None;
     writable := λ fn, negb (bool_decide (fn = "T.mtx.jumps"));
     seed := {| tape := tp; pos := 0 |} |}.

(** The same surroundings with the matrix file [fn] holding [T]. *)
Definition with_matrix (w : world) (fn : string) (T : lil_matrix) : world :=
  {| argv := argv w;
     path_exists := path_exists w;
     mm_file := λ f, if decide (f = fn) then Some T else mm_file w f;
     microstate_file := microstate_file w;
     jumps_file := jumps_file w;
     writable := writable w;
     seed := seed w |}.

(** [T.todense()]: every row read column by column. *)
Definition to_dense (T : lil_matrix) : list (list Q) :=
  (λ r, getitem r <$> seq 0 (ncols T)) <$> lil_rows T.

(** Two dense matrices hold the same numbers. *)
Definition same_values (A B : list (list Q)) : Prop :=
  Forall2 (Forall2 Qeq) A B.

(** [C] after [n] increments of [C[i,j]]. *)
Definition add_count (C : count_matrix) (i j : nat) (n : Z) : count_matrix :=
  {| cshape := cshape C;
     counts := <[(i, j) := (count_at C i j + n)%Z]> (counts C) |}.

(** ** Notions used by the further properties *)

(** The jump tables pickled so far, with the file they went to. *)
Definition dumps (evs : list event) : list (string * gmap nat jump_table) :=
  omap (λ e, match e with
             | PickleDump fn jumps => Some (fn, jumps)
             | _ => None
             end) evs.

(** The progress lines of the trial loop: the two numbers of each
    ['Sampled ...'] line of line 115. *)
Definition sampled_lines (evs : list event) : list (Z * Z) :=
  omap (λ e, match e with
             | Print (MsgSampled sampled total) => Some (sampled, total)
             | _ => None
             end) evs.

(** The surroundings let the script get past lines 30-93: five arguments
    of which the third and fourth are integers, a matrix file that reads as
    [T], a microstate file that loads, and either a cache file that loads
    or a cache file that can be written. *)
Definition sampling_reached (w : world)
    (microTFn microstatesFn outName : string) (T : lil_matrix)
    (nsamples ntrials : Z) : Prop :=
  (∃ prog a3 a4 rest,
      argv w = prog :: microTFn :: microstatesFn :: a3 :: a4 :: outName :: rest ∧
      py_int a3 = Some nsamples ∧ py_int a4 = Some ntrials) ∧
  path_exists w microTFn = true ∧ mm_file w microTFn = Some T ∧
  is_Some (microstate_file w microstatesFn) ∧
  (if path_exists w (microTFn +:+ ".jumps")
   then is_Some (jumps_file w (microTFn +:+ ".jumps"))
   else writable w (microTFn +:+ ".jumps") = true).

(** The same surroundings with the cache file [fn] in place, holding
    [jumps]. *)
Definition with_cache (w : world) (fn : string)
    (jumps : gmap nat jump_table) : world :=
  {| argv := argv w;
     path_exists := λ f, if decide (f = fn) then true else path_exists w f;
     mm_file := mm_file w;
     microstate_file := microstate_file w;
     jumps_file := λ f, if decide (f = fn) then Some jumps else jumps_file w f;
     writable := writable w;
     seed := seed w |}.

(** Every stored count lies inside the shape of the matrix and is
    positive. *)
Definition in_shape (C : count_matrix) : Prop :=
  ∀ i j v, counts C !! (i, j) = Some v →
           i < (cshape C).1 ∧ j < (cshape C).2 ∧ (0 < v)%Z.

(** One pass of lines 100-112 that starts from [C] and completes leaves
    [C']. *)
Definition pass_of (draw_index : list Q → rng → result nat * rng)
    (jumps : gmap nat jump_table) (NumSamplesPerState : list Z)
    (NumStates : nat) (C C' : count_matrix) : Prop :=
  ∃ g, res (sample_all draw_index jumps NumSamplesPerState NumStates C g)
       = Ok C'.

(** The same surroundings with the microstate file [fn] loading as
    [mInfo]. *)
Definition with_microstates (w : world) (fn : string) (mInfo : string)
    : world :=
  {| argv := argv w;
     path_exists := path_exists w;
     mm_file := mm_file w;
     microstate_file := λ f, if decide (f = fn) then Some mInfo
                             else microstate_file w f;
     jumps_file := jumps_file w;
     writable := writable w;
     seed := seed w |}.

(** * Properties *)

(** ** Laws of the monad *)

Lemma outcome_eta {A} (o : outcome A) : Outcome (res o) (out o) (final o) = o.
Proof. by destruct o. Qed.

Lemma bind_ret_l {A B} (a : A) (k : A → M B) g : bind (ret a) k g = k a g.
Proof. unfold bind, ret; simpl. apply outcome_eta. Qed.

Lemma bind_ok {A B} (m : M A) (k : A → M B) g a :
  res (m g) = Ok a →
  bind m k g =
    Outcome (res (k a (final (m g))))
            (out (m g) ++ out (k a (final (m g))))
            (final (k a (final (m g)))).
Proof. intros E. unfold bind. by rewrite E. Qed.

Lemma bind_halt {A B} (m : M A) (k : A → M B) g h :
  res (m g) = Halt h →
  bind m k g = Outcome (Halt h) (out (m g)) (final (m g)).
Proof. intros E. unfold bind. by rewrite E. Qed.

Lemma bind_emit {B} (e : event) (k : unit → M B) g :
  bind (emit e) k g =
    Outcome (res (k tt g)) (e :: out (k tt g)) (final (k tt g)).
Proof. reflexivity. Qed.

Lemma bind_raise {A B} (e : exn) (k : A → M B) g :
  bind (raise e) k g = Outcome (Halt (Raise e)) [] g.
Proof. reflexivity. Qed.

Lemma bind_res_ok_inv {A B} (m : M A) (k : A → M B) g b :
  res (bind m k g) = Ok b →
  ∃ a, res (m g) = Ok a ∧ res (k a (final (m g))) = Ok b.
Proof.
  unfold bind. destruct (res (m g)) as [a|h] eqn:E; simpl; [|done].
  intros Hk. by exists a.
Qed.

Lemma written_app evs1 evs2 :
  written (evs1 ++ evs2) = written evs1 ++ written evs2.
Proof. apply omap_app. Qed.

(** ** Loops *)

Lemma foldM_cons {A B} (body : B → A → M B) x l acc :
  foldM body (x :: l) acc = bind (body acc x) (foldM body l).
Proof. reflexivity. Qed.

(** A loop whose body is silent is silent. *)
Lemma foldM_out_nil {A B} (body : B → A → M B) l :
  (∀ acc x g, out (body acc x g) = []) →
  ∀ acc g, out (foldM body l acc g) = [].
Proof.
  intros Hbody. induction l as [|x l IH]; intros acc g; [done|].
  rewrite foldM_cons. unfold bind.
  destruct (res (body acc x g)); simpl; rewrite Hbody; [apply IH | done].
Qed.

(** An invariant of the body is an invariant of a loop that completes. *)
Lemma foldM_invariant {A B} (I : B → Prop) (body : B → A → M B) l :
  (∀ acc x g acc', x ∈ l → I acc → res (body acc x g) = Ok acc' → I acc') →
  ∀ acc g acc', I acc → res (foldM body l acc g) = Ok acc' → I acc'.
Proof.
  induction l as [|x l IH]; intros Hbody acc g acc' HI.
  - simpl. by intros [= <-].
  - rewrite foldM_cons. intros (a & Ha & Hrest)%bind_res_ok_inv.
    eapply IH; [| |exact Hrest].
    + intros ? ? ? ? ?. apply Hbody. by right.
    + eapply Hbody; [by left|exact HI|exact Ha].
Qed.

(** A quantity that every round increases by [d] has grown by [d] times
    the number of rounds when the loop completes. *)
Lemma foldM_count {A B} (f : B → Z) (d : Z) (body : B → A → M B) l :
  (∀ acc x g acc', x ∈ l → res (body acc x g) = Ok acc' →
                   f acc' = (f acc + d)%Z) →
  ∀ acc g acc', res (foldM body l acc g) = Ok acc' →
                f acc' = (f acc + d * Z.of_nat (length l))%Z.
Proof.
  induction l as [|x l IH]; intros Hbody acc g acc'.
  - simpl. intros [= <-]. lia.
  - rewrite foldM_cons. intros (a & Ha & Hrest)%bind_res_ok_inv.
    rewrite (IH (λ acc x g acc' Hx, Hbody acc x g acc' (list_elem_of_further _ _ _ Hx))
                _ _ _ Hrest).
    rewrite (Hbody _ _ _ _ (list_elem_of_here _ _) Ha). simpl length. lia.
Qed.

(** ** The accumulator *)

Lemma count_at_new n m i j : count_at (new_counts n m) i j = 0%Z.
Proof. unfold count_at, new_counts; simpl. by rewrite lookup_empty. Qed.

Lemma total_count_new n m : total_count (new_counts n m) = 0%Z.
Proof. unfold total_count, new_counts; simpl. apply map_fold_empty. Qed.

Lemma map_fold_add_insert (m : gmap (nat * nat) Z) k v :
  map_fold (λ _ v acc, (v + acc)%Z) 0%Z (<[k := v]> m)
  = (map_fold (λ _ v acc, (v + acc)%Z) 0%Z m - default 0%Z (m !! k) + v)%Z.
Proof.
  destruct (m !! k) as [v0|] eqn:E; simpl.
  - rewrite <- (insert_delete_eq m k v).
    rewrite (map_fold_delete_L _ _ k v0 m); [|intros; lia|done].
    rewrite map_fold_insert_L; [lia|intros; lia|apply lookup_delete_eq].
  - rewrite map_fold_insert_L; [lia|intros; lia|done].
Qed.

Lemma bind_out_nil {A B} (m : M A) (k : A → M B) g :
  out (m g) = [] → (∀ a g', out (k a g') = []) → out (bind m k g) = [].
Proof.
  intros Hm Hk. unfold bind. destruct (res (m g)); simpl; rewrite Hm; [|done].
  apply Hk.
Qed.

Lemma index_out {A} (l : list A) i g : out (index l i g) = [].
Proof. unfold index. by destruct (l !! i). Qed.

Lemma index_ok {A} (l : list A) i g x :
  res (index l i g) = Ok x → l !! i = Some x ∧ final (index l i g) = g.
Proof. unfold index. destruct (l !! i); simpl; [|done]. by intros [= ->]. Qed.

Lemma dict_get_out {A} (d : gmap nat A) k g : out (dict_get d k g) = [].
Proof. unfold dict_get. by destruct (d !! k). Qed.

Lemma dict_get_ok {A} (d : gmap nat A) k g x :
  res (dict_get d k g) = Ok x → d !! k = Some x ∧ final (dict_get d k g) = g.
Proof. unfold dict_get. destruct (d !! k); simpl; [|done]. by intros [= ->]. Qed.

Lemma grows_within_refl S C : grows_within S C C.
Proof. split; [done|]. intros a b. split; lia. Qed.

Lemma grows_within_trans S C1 C2 C3 :
  grows_within S C1 C2 → grows_within S C2 C3 → grows_within S C1 C3.
Proof.
  intros [Hs1 H1] [Hs2 H2]. split; [congruence|]. intros a b.
  destruct (H1 a b) as [Hle1 Hin1], (H2 a b) as [Hle2 Hin2].
  split; [lia|]. intros Hlt.
  destruct (decide (count_at C1 a b < count_at C2 a b)%Z); [auto|].
  apply Hin2. lia.
Qed.

Lemma grows_within_weaken (S S' : nat → nat → Prop) C C' :
  (∀ a b, S a b → S' a b) → grows_within S C C' → grows_within S' C C'.
Proof.
  intros HS [Hs H]. split; [done|]. intros a b.
  destruct (H a b). split; auto.
Qed.

Section Sampling.

Variable draw_index : list Q → rng → result nat * rng.

Lemma call_draw_index_out jprobs g :
  out (call_draw_index draw_index jprobs g) = [].
Proof. unfold call_draw_index. by destruct (draw_index jprobs g). Qed.

Lemma increment_out C i j g : out (increment C i j g) = [].
Proof. unfold increment. by case_decide. Qed.

Lemma increment_ok C i j g C' :
  res (increment C i j g) = Ok C' →
  j < (cshape C).2 ∧ cshape C' = cshape C ∧
  counts C' = <[(i, j) := (count_at C i j + 1)%Z]> (counts C).
Proof.
  unfold increment. case_decide as Hin; simpl; [|done].
  intros [= <-]. simpl. tauto.
Qed.

Lemma increment_count_at C i j g C' a b :
  res (increment C i j g) = Ok C' →
  count_at C' a b =
    if decide ((i, j) = (a, b)) then (count_at C i j + 1)%Z
    else count_at C a b.
Proof.
  intros (_ & _ & Hc)%increment_ok. unfold count_at at 1. rewrite Hc.
  rewrite lookup_insert. by case_decide.
Qed.

Lemma increment_total C i j g C' :
  res (increment C i j g) = Ok C' →
  total_count C' = (total_count C + 1)%Z.
Proof.
  intros (_ & _ & Hc)%increment_ok. unfold total_count. rewrite Hc.
  rewrite map_fold_add_insert. unfold count_at. lia.
Qed.

Lemma draw_step_out i pj jp C g :
  out (draw_step draw_index i pj jp C g) = [].
Proof.
  unfold draw_step. apply bind_out_nil; [apply call_draw_index_out|].
  intros k g'. apply bind_out_nil; [apply index_out|].
  intros j g''. apply increment_out.
Qed.

Lemma draw_step_ok i pj jp C g C' :
  res (draw_step draw_index i pj jp C g) = Ok C' →
  ∃ j g', j ∈ pj ∧ res (increment C i j g') = Ok C'.
Proof.
  unfold draw_step.
  intros (k & _ & (j & Hj & Hinc)%bind_res_ok_inv)%bind_res_ok_inv.
  apply index_ok in Hj as [Hj Hg]. rewrite Hg in Hinc.
  eexists j, _. split; [|exact Hinc]. by eapply list_elem_of_lookup_2.
Qed.

Lemma draw_step_grows i pj jp C g C' :
  res (draw_step draw_index i pj jp C g) = Ok C' →
  grows_within (λ a b, a = i ∧ b ∈ pj) C C'.
Proof.
  intros (j & g' & Hj & Hinc)%draw_step_ok.
  split; [by apply increment_ok in Hinc as (_ & ? & _)|].
  intros a b. rewrite (increment_count_at _ _ _ _ _ a b Hinc).
  case_decide as Heq; [|lia]. injection Heq as <- <-. split; [lia|done].
Qed.

Lemma sample_state_out i pj jp n C g :
  out (sample_state draw_index i pj jp n C g) = [].
Proof.
  unfold sample_state. apply foldM_out_nil. intros. apply draw_step_out.
Qed.

Lemma sample_state_grows i pj jp n C g C' :
  res (sample_state draw_index i pj jp n C g) = Ok C' →
  grows_within (λ a b, a = i ∧ b ∈ pj) C C'.
Proof.
  unfold sample_state.
  apply (foldM_invariant (grows_within (λ a b, a = i ∧ b ∈ pj) C));
    [|apply grows_within_refl].
  intros acc x g0 acc' _ Hacc Hstep.
  eapply grows_within_trans; [exact Hacc|].
  by apply draw_step_grows in Hstep.
Qed.

Lemma sample_state_total i pj jp n C g C' :
  res (sample_state draw_index i pj jp n C g) = Ok C' →
  total_count C' = (total_count C + Z.max 0 n)%Z.
Proof.
  unfold sample_state. intros H.
  apply (foldM_count total_count 1) in H.
  - rewrite H. unfold range. rewrite length_seq. lia.
  - intros acc x g0 acc' _ (j & g' & _ & Hinc)%draw_step_ok.
    by apply increment_total in Hinc.
Qed.


(** *** One pass over the states *)

Lemma sample_all_out jumps NumSamplesPerState NumStates C g :
  out (sample_all draw_index jumps NumSamplesPerState NumStates C g) = [].
Proof.
  unfold sample_all. apply foldM_out_nil. intros acc i g0.
  unfold sample_from. apply bind_out_nil; [apply dict_get_out|]. intros jt g1.
  apply bind_out_nil; [apply index_out|]. intros n g2.
  apply sample_state_out.
Qed.

Lemma sample_all_grows jumps NumSamplesPerState NumStates C g C' :
  res (sample_all draw_index jumps NumSamplesPerState NumStates C g) = Ok C' →
  grows_within (supported_by jumps) C C'.
Proof.
  unfold sample_all.
  apply (foldM_invariant (grows_within (supported_by jumps) C));
    [|apply grows_within_refl].
  intros acc i g0 acc' _ Hacc. unfold sample_from.
  intros (jt & Hjt & (n & _ & Hs)%bind_res_ok_inv)%bind_res_ok_inv.
  apply dict_get_ok in Hjt as [Hjt _].
  eapply grows_within_trans; [exact Hacc|].
  apply sample_state_grows in Hs.
  eapply grows_within_weaken; [|exact Hs].
  intros a b [-> Hb]. by exists jt.
Qed.

Lemma sample_all_total jumps NumStates nsamples C g C' :
  res (sample_all draw_index jumps (replicate NumStates nsamples)
                  NumStates C g) = Ok C' →
  total_count C' =
    (total_count C + Z.max 0 nsamples * Z.of_nat NumStates)%Z.
Proof.
  unfold sample_all. intros H.
  apply (foldM_count total_count (Z.max 0 nsamples)) in H.
  - by rewrite H, length_seq.
  - intros acc i g0 acc' _. unfold sample_from.
    intros (jt & _ & (n & Hn & Hs)%bind_res_ok_inv)%bind_res_ok_inv.
    apply index_ok in Hn as [[-> _]%lookup_replicate _].
    by apply sample_state_total in Hs.
Qed.

Lemma sample_all_one_pass jumps NumStates nsamples C g C' :
  res (sample_all draw_index jumps (replicate NumStates nsamples)
                  NumStates C g) = Ok C' →
  one_pass jumps (Z.max 0 nsamples * Z.of_nat NumStates) C C'.
Proof.
  intros H. split; [by eapply sample_all_grows|by eapply sample_all_total].
Qed.

(** *** The trial loop *)

Lemma trial_body_cases w jumps NumStates outName nsamples C tc t g :
  let o := trial_body draw_index w jumps (replicate NumStates nsamples)
                      NumStates outName nsamples (C, tc) t g in
  (∃ h, res o = Halt h ∧ written (out o) = []) ∨
  (∃ C' tc',
      one_pass jumps (Z.max 0 nsamples * Z.of_nat NumStates) C C' ∧
      res o = Ok (C', tc') ∧
      written (out o) = [(out_name outName nsamples t, C')]).
Proof.
  intros o. subst o. unfold trial_body.
  set (sa := sample_all _ _ _ _ _).
  destruct (res (sa g)) as [C'|h] eqn:E1.
  2:{ left. exists h. rewrite (bind_halt _ _ _ _ E1). simpl.
      subst sa. by rewrite sample_all_out. }
  rewrite (bind_ok _ _ _ _ E1). simpl.
  assert (out (sa g) = []) as -> by (subst sa; apply sample_all_out).
  simpl. set (g1 := final (sa g)).
  destruct (res (index (replicate NumStates nsamples) 0 g1)) as [n0|h] eqn:E2.
  2:{ left. exists h. rewrite (bind_halt _ _ _ _ E2). simpl.
      by rewrite index_out. }
  rewrite (bind_ok _ _ _ _ E2). rewrite index_out.
  apply index_ok in E2 as [_ ->]. unfold print, mmwrite.
  rewrite bind_emit.
  destruct (writable w (out_name outName nsamples t)).
  - right. rewrite bind_emit. simpl. eexists _, _.
    split; [|split; reflexivity]. subst sa. by eapply sample_all_one_pass.
  - left. rewrite bind_raise. simpl. by eexists.
Qed.

Lemma trial_loop_written w jumps NumStates outName nsamples l C tc g :
  let o := foldM (trial_body draw_index w jumps
                    (replicate NumStates nsamples) NumStates outName nsamples)
                 l (C, tc) g in
  ∃ Cs, written (out o) = zip (out_name outName nsamples <$> l) Cs ∧
        length Cs ≤ length l ∧
        chained (one_pass jumps (Z.max 0 nsamples * Z.of_nat NumStates))
                C Cs ∧
        (∀ v, res o = Ok v → length Cs = length l).
Proof.
  revert C tc g. induction l as [|t l IH]; intros C tc g o.
  - exists []. subst o. simpl. done.
  - subst o. rewrite foldM_cons.
    destruct (trial_body_cases w jumps NumStates outName nsamples C tc t g)
      as [(h & Hh & Hw)|(C' & tc' & Hpass & Hok & Hw)].
    + exists []. rewrite (bind_halt _ _ _ _ Hh). cbn [res out final].
      rewrite Hw. simpl. repeat split; [lia|done].
    + rewrite (bind_ok _ _ _ _ Hok). cbn [res out final].
      destruct (IH C' tc' (final (trial_body draw_index w jumps
                  (replicate NumStates nsamples) NumStates outName nsamples
                  (C, tc) t g))) as (Cs & HCs & Hlen & Hch & Hall).
      exists (C' :: Cs). rewrite written_app, Hw, HCs. simpl.
      split; [done|]. split; [lia|]. split; [done|].
      intros v Hv. f_equal. by eapply Hall.
Qed.

Lemma trials_written w jumps NumStates outName nsamples NumTrials g :
  let o := trials draw_index w jumps NumStates outName nsamples NumTrials g in
  ∃ Cs, written (out o) = zip (out_name outName nsamples <$> range NumTrials) Cs ∧
        length Cs ≤ Z.to_nat NumTrials ∧
        chained (one_pass jumps (Z.max 0 nsamples * Z.of_nat NumStates))
                (new_counts NumStates NumStates) Cs ∧
        (res o = Ok tt → length Cs = Z.to_nat NumTrials).
Proof.
  intros o. subst o. unfold trials.
  set (loop := foldM _ _ _).
  destruct (trial_loop_written w jumps NumStates outName nsamples
              (range NumTrials) (new_counts NumStates NumStates) 0%Z g)
    as (Cs & HCs & Hlen & Hch & Hall).
  fold loop in HCs, Hall. unfold range in Hlen, Hall.
  rewrite length_seq in Hlen, Hall.
  exists Cs. unfold bind.
  destruct (res (loop g)) as [v|h] eqn:E; simpl.
  - rewrite app_nil_r. repeat split; try done. intros _. by eapply Hall.
  - repeat split; done.
Qed.

(** *** Before the trials *)

Lemma written_prints msgs : written (Print <$> msgs) = [].
Proof. by induction msgs. Qed.

Lemma build_step_spec T m i g :
  ∃ msgs, build_step T m i g
          = Outcome (Ok (<[i := build T i]> m)) (Print <$> msgs) g.
Proof.
  unfold build_step. cbv zeta. destruct (i mod 100 =? 0)%nat.
  - exists [MsgJump i (build T i)].
    unfold dict_get. by rewrite lookup_insert_eq.
  - by exists [].
Qed.

Lemma build_all_from T m a n g :
  ∃ jumps msgs,
    foldM (build_step T) (seq a n) m g
    = Outcome (Ok jumps) (Print <$> msgs) g ∧
    ∀ i, jumps !! i =
         if decide (a ≤ i < a + n) then Some (build T i) else m !! i.
Proof.
  revert m a. induction n as [|n IH]; intros m a.
  - exists m, []. split; [done|]. intros i. case_decide; [lia|done].
  - destruct (IH (<[a := build T a]> m) (S a)) as (jumps & msgs & Heq & Hl).
    destruct (build_step_spec T m a g) as (msgs0 & Hstep).
    simpl seq. rewrite foldM_cons.
    exists jumps, (msgs0 ++ msgs). split.
    + rewrite (bind_ok _ _ g (<[a := build T a]> m)); [|by rewrite Hstep].
      rewrite Hstep. cbn [res out final]. rewrite Heq. cbn [res out final].
      by rewrite fmap_app.
    + intros i. rewrite Hl. destruct (decide (i = a)) as [->|Hne].
      * rewrite lookup_insert_eq. repeat case_decide; try lia; done.
      * rewrite lookup_insert_ne by done. repeat case_decide; try lia; done.
Qed.

Lemma build_all_spec T NumStates g :
  ∃ jumps msgs,
    build_all T NumStates g = Outcome (Ok jumps) (Print <$> msgs) g ∧
    ∀ i, jumps !! i =
         if decide (i < NumStates) then Some (build T i) else None.
Proof.
  destruct (build_all_from T ∅ 0 NumStates g) as (jumps & msgs & Heq & Hl).
  exists jumps, msgs. split; [exact Heq|]. intros i. rewrite Hl.
  rewrite lookup_empty. repeat case_decide; try lia; done.
Qed.

(** Lines 67-93 either raise [IOError] or hand over the jump tables; they
    write no count matrix and draw nothing. *)
Lemma get_jumps_spec w T jumpFn g :
  let o := get_jumps w T (nrows T) jumpFn g in
  final o = g ∧ written (out o) = [] ∧
  match res o with
  | Ok jumps => jumps_from w T jumpFn jumps
  | Halt h => h = Raise IOError
  end.
Proof.
  intros o. subst o. unfold get_jumps, jumps_from.
  destruct (path_exists w jumpFn).
  - unfold load_jumps, print. rewrite !bind_emit. unfold io.
    destruct (jumps_file w jumpFn) as [jumps|]; simpl; done.
  - unfold print. rewrite bind_emit.
    destruct (build_all_spec T (nrows T) g) as (jumps & msgs & Heq & Hl).
    rewrite (bind_ok _ _ g jumps); [|by rewrite Heq].
    rewrite Heq. cbn [res out final]. unfold save_jumps, print.
    change (written (Print MsgMakingJumps :: ?l)) with (written l).
    rewrite written_app, written_prints.
    destruct (writable w jumpFn); simpl; done.
Qed.

Lemma read_matrix_spec w microTFn g :
  read_matrix w microTFn g =
    if path_exists w microTFn then
      match mm_file w microTFn with
      | Some T => Outcome (Ok T) [MMRead microTFn; Print (MsgMatrix T)] g
      | None => Outcome (Halt (Raise IOError)) [MMRead microTFn] g
      end
    else Outcome (Halt (Exit 1)) [Print (MsgCantFind microTFn)] g.
Proof.
  unfold read_matrix. destruct (path_exists w microTFn); [|done].
  by destruct (mm_file w microTFn).
Qed.

Lemma read_microstates_spec w microstatesFn g :
  read_microstates w microstatesFn g =
    match microstate_file w microstatesFn with
    | Some mInfo =>
        Outcome (Ok tt)
                [LoadMicrostates microstatesFn; Print (MsgMInfo mInfo)] g
    | None =>
        Outcome (Halt (Raise IOError)) [LoadMicrostates microstatesFn] g
    end.
Proof.
  unfold read_microstates. by destruct (microstate_file w microstatesFn).
Qed.

(** The script once [sys.argv] is known to hold the five arguments. *)
Lemma main_eq w prog microTFn microstatesFn a3 a4 outName rest g :
  argv w = prog :: microTFn :: microstatesFn :: a3 :: a4 :: outName :: rest →
  main draw_index w g =
    (let* nsamples := int a3 in
     let* ntrials := int a4 in
     let* T := read_matrix w microTFn in
     read_microstates w microstatesFn >>
     let* jumps := get_jumps w T (nrows T) (microTFn +:+ ".jumps") in
     trials draw_index w jumps (nrows T) outName nsamples ntrials) g.
Proof.
  intros Hargv. unfold main. rewrite Hargv.
  case_decide as Hlen; [simpl in Hlen; lia|].
  unfold index. cbn [lookup list_lookup]. rewrite !bind_ret_l.
  unfold int. destruct (py_int a3) as [ns|]; [|done].
  rewrite !bind_ret_l.
  destruct (py_int a4) as [nt|]; [|done].
  by rewrite !bind_ret_l.
Qed.

(** A run either stops before the trials, having written no count matrix,
    or goes through the trial loop with jump tables taken from the cache
    or from the matrix. *)
Lemma run_cases w :
  (∃ h, res (run draw_index w) = Halt h ∧
        written (out (run draw_index w)) = [] ∧
        final (run draw_index w) = seed w) ∨
  (∃ microTFn a3 a4 outName T nsamples ntrials jumps pre,
      argv w !! 1 = Some microTFn ∧ argv w !! 3 = Some a3 ∧
      argv w !! 4 = Some a4 ∧ argv w !! 5 = Some outName ∧
      py_int a3 = Some nsamples ∧ py_int a4 = Some ntrials ∧
      path_exists w microTFn = true ∧ mm_file w microTFn = Some T ∧
      jumps_from w T (microTFn +:+ ".jumps") jumps ∧
      written pre = [] ∧
      run draw_index w =
        let ot := trials draw_index w jumps (nrows T) outName
                         nsamples ntrials (seed w) in
        Outcome (res ot) (pre ++ out ot) (final ot)).
Proof.
  unfold run. destruct (decide (length (argv w) < 6)) as [Hlen|Hlen].
  { left. unfold main. rewrite decide_True by done.
    exists (Exit 1). done. }
  destruct (argv w)
    as [|prog [|microTFn [|microstatesFn [|a3 [|a4 [|outName rest]]]]]]
    eqn:Hargv; simpl in Hlen; try lia.
  rewrite (main_eq _ _ _ _ _ _ _ _ _ Hargv).
  unfold int.
  destruct (py_int a3) as [ns|] eqn:E3;
    [rewrite bind_ret_l|left; exists (Raise ValueError); done].
  destruct (py_int a4) as [nt|] eqn:E4;
    [rewrite bind_ret_l|left; exists (Raise ValueError); done].
  pose proof (read_matrix_spec w microTFn (seed w)) as HT.
  destruct (path_exists w microTFn) eqn:Ex.
  2:{ left. exists (Exit 1).
      rewrite (bind_halt _ _ _ (Exit 1)); by rewrite HT. }
  destruct (mm_file w microTFn) as [T|] eqn:Em.
  2:{ left. exists (Raise IOError).
      rewrite (bind_halt _ _ _ (Raise IOError)); by rewrite HT. }
  rewrite (bind_ok _ _ _ T) by (by rewrite HT). rewrite HT.
  cbn [res out final].
  pose proof (read_microstates_spec w microstatesFn (seed w)) as HM.
  destruct (microstate_file w microstatesFn) as [mInfo|].
  2:{ left. exists (Raise IOError).
      rewrite (bind_halt _ _ _ (Raise IOError)); by rewrite HM. }
  rewrite (bind_ok _ _ _ tt) by (by rewrite HM). rewrite HM.
  cbn [res out final].
  destruct (get_jumps_spec w T (microTFn +:+ ".jumps") (seed w))
    as (Hg & Hw & Hres).
  destruct (res (get_jumps w T (nrows T) (microTFn +:+ ".jumps") (seed w)))
    as [jumps|h] eqn:Ej.
  2:{ left. exists h. rewrite (bind_halt _ _ _ h Ej). cbn [res out final].
      rewrite Hg. simpl. by rewrite Hw. }
  rewrite (bind_ok _ _ _ jumps Ej). cbn [res out final]. rewrite Hg.
  right. exists microTFn, a3, a4, outName, T, ns, nt, jumps.
  exists ([MMRead microTFn; Print (MsgMatrix T)] ++
          [LoadMicrostates microstatesFn; Print (MsgMInfo mInfo)] ++
          out (get_jumps w T (nrows T) (microTFn +:+ ".jumps") (seed w))).
  repeat (split; [done|]).
  cbv zeta. f_equal.
Qed.

End Sampling.

(** ** The command line *)

(** C8: whenever the script is started with fewer than five command-line
    arguments it prints the usage message and exits with code 1, and it
    has read no file by then: the usage line is the only event of the
    run. *)
Theorem usage_on_too_few_arguments draw_index w :
  length (arguments w) < 5 →
  run draw_index w = Outcome (Halt (Exit 1)) [Print MsgUsage] (seed w) ∧
  reads (out (run draw_index w)) = [].
Proof.
  intros Hlen. unfold run, main.
  assert (length (argv w) < 6) as Hargv.
  { unfold arguments in Hlen. rewrite length_drop in Hlen. lia. }
  rewrite decide_True by done. done.
Qed.

Lemma usage_on_too_few_arguments_witness :
  length (arguments (small_world ["T.mtx"; "micro.dat"] cycle3 None true halves)) < 5 ∧
  run WeightedSampler.draw
      (small_world ["T.mtx"; "micro.dat"] cycle3 None true halves)
  = Outcome (Halt (Exit 1)) [Print MsgUsage] {| tape := halves; pos := 0 |}.
Proof.
  split; [simpl; lia|].
  apply (usage_on_too_few_arguments WeightedSampler.draw
           (small_world ["T.mtx"; "micro.dat"] cycle3 None true halves)).
  simpl; lia.
Defined.

(** ** Sampling from one state *)

Section SampleState.

Variable draw_index : list Q → rng → result nat * rng.

Lemma draw_step_inv i pj jp C g C1 :
  res (draw_step draw_index i pj jp C g) = Ok C1 →
  ∃ k j g1,
    draw_index jp g = (Ok k, g1) ∧ pj !! k = Some j ∧
    final (draw_step draw_index i pj jp C g) = g1 ∧
    ∀ g0, increment C i j g0 = Outcome (Ok C1) [] g0.
Proof.
  unfold draw_step, call_draw_index, bind.
  destruct (draw_index jp g) as [[k|h] g1]; cbn [res out final]; [|done].
  unfold index.
  destruct (pj !! k) as [j|] eqn:Hj; cbn [res out final ret raise]; [|done].
  unfold increment.
  destruct (decide (i < (cshape C).1 ∧ j < (cshape C).2)) as [Hin|Hin];
    cbn [res out final ret raise]; [|done].
  intros [= <-]. exists k, j, g1. repeat (split; [done|]).
  intros g0. by rewrite decide_True.
Qed.

(** The loop of lines 110-112 records exactly the destinations that
    [draws] lists: when it completes, [draws] yields as many
    destinations as rounds, from the same random values, and [C'] is [C]
    with each of them counted once. *)
Lemma sample_state_records_draws i pj jp l C g C' js0 :
  res (foldM (λ C _, draw_step draw_index i pj jp C) l C g) = Ok C' →
  ∃ js,
    foldM (λ js (_ : nat),
             let* k := call_draw_index draw_index jp in
             let* j := index pj k in
             ret (js ++ [j])) l js0 g
    = Outcome (Ok (js0 ++ js)) []
        (final (foldM (λ C _, draw_step draw_index i pj jp C) l C g)) ∧
    length js = length l ∧
    ∀ g0, res (foldM (λ C j, increment C i j) js C g0) = Ok C'.
Proof.
  revert C g js0. induction l as [|x l IH]; intros C g js0.
  - simpl. intros [= <-]. exists []. by rewrite app_nil_r.
  - rewrite !foldM_cons. intros (C1 & Hstep & Hrest)%bind_res_ok_inv.
    rewrite (bind_ok _ _ _ _ Hstep). cbn [res out final].
    destruct (draw_step_inv _ _ _ _ _ _ Hstep)
      as (k & j & g1 & Hdraw & Hj & Hg1 & Hinc).
    rewrite Hg1 in Hrest |- *.
    destruct (IH _ _ (js0 ++ [j]) Hrest) as (js & Heq & Hlen & Hincs).
    exists (j :: js).
    assert ((let* k := call_draw_index draw_index jp in
             let* j := index pj k in ret (js0 ++ [j])) g
            = Outcome (Ok (js0 ++ [j])) [] g1) as Hbody.
    { unfold call_draw_index, bind. rewrite Hdraw. cbn [res out final].
      unfold index. by rewrite Hj. }
    rewrite (bind_ok _ _ g (js0 ++ [j])); [|by rewrite Hbody].
    rewrite Hbody. cbn [res out final]. rewrite Heq. cbn [res out final app].
    split; [by rewrite <- app_assoc|]. split; [simpl; lia|].
    intros g0. rewrite foldM_cons.
    rewrite (bind_ok _ _ g0 C1); [|by rewrite Hinc].
    rewrite Hinc. cbn [res out final]. apply Hincs.
Qed.

(** C7: for every state [i] and every jump table, a request for zero
    samples yields the empty sequence of outcomes and hands back the
    accumulator [C] as it was; nothing is drawn and nothing is printed or
    written. *)
Theorem zero_samples_change_nothing i possible_j jprobs C g :
  draws draw_index possible_j jprobs 0 g = Outcome (Ok []) [] g ∧
  sample_state draw_index i possible_j jprobs 0 C g = Outcome (Ok C) [] g.
Proof. split; reflexivity. Qed.

End SampleState.

(** ** Output files *)

Lemma string_app_length (s t : string) :
  String.length (s +:+ t) = String.length s + String.length t.
Proof. induction s as [|c s IH]; simpl; [done|]. by rewrite IH. Qed.

Lemma string_app_inv_tail (s1 s2 t : string) :
  s1 +:+ t = s2 +:+ t → s1 = s2.
Proof.
  revert s2. induction s1 as [|c s1 IH]; intros [|c' s2] H; simpl in H.
  - done.
  - apply (f_equal String.length) in H.
    rewrite ?string_app_length in H. simpl in H.
    rewrite ?string_app_length in H. lia.
  - apply (f_equal String.length) in H.
    rewrite ?string_app_length in H. simpl in H.
    rewrite ?string_app_length in H. lia.
  - injection H as -> H. f_equal. by apply IH.
Qed.

(** Different trials write to different files. *)
Lemma out_name_inj outName nsamples t1 t2 :
  out_name outName nsamples t1 = out_name outName nsamples t2 → t1 = t2.
Proof.
  unfold out_name. intros H.
  do 5 apply (inj (String.app _)) in H.
  apply string_app_inv_tail in H. apply (inj pretty) in H. lia.
Qed.

Lemma fst_zip_le {A B} (l : list A) (k : list B) :
  length l = length k → (zip l k).*1 = l.
Proof. intros H. apply fst_zip. lia. Qed.

(** C6: a run that ends normally has written exactly one count matrix per
    trial: the files are named
    [tCounts.uniform.<outName>.<nsamples>.<trial>.mtx] for
    [trial = 0, 1, ..., ntrials - 1] in this order, there are [ntrials] of
    them, and no two share a name. *)
Theorem one_file_per_trial draw_index w :
  res (run draw_index w) = Ok tt →
  ∃ a3 a4 outName nsamples ntrials,
    argv w !! 3 = Some a3 ∧ py_int a3 = Some nsamples ∧
    argv w !! 4 = Some a4 ∧ py_int a4 = Some ntrials ∧
    argv w !! 5 = Some outName ∧
    (written (out (run draw_index w))).*1
      = out_name outName nsamples <$> range ntrials ∧
    length (written (out (run draw_index w))) = Z.to_nat ntrials ∧
    NoDup (written (out (run draw_index w))).*1.
Proof.
  intros Hok.
  destruct (run_cases draw_index w)
    as [(h & Hh & _)|(microTFn & a3 & a4 & outName & T & ns & nt & jumps & pre
                      & H1 & H3 & H4 & H5 & E3 & E4 & _ & _ & _ & Hpre & Hrun)].
  { rewrite Hh in Hok. done. }
  exists a3, a4, outName, ns, nt. repeat (split; [done|]).
  rewrite Hrun in Hok |- *. cbv zeta in *. cbn [res out final] in *.
  destruct (trials_written draw_index w jumps (nrows T) outName ns nt (seed w))
    as (Cs & HCs & _ & _ & Hlen).
  specialize (Hlen Hok).
  rewrite written_app, Hpre, HCs. cbn [app].
  assert (length (out_name outName ns <$> range nt) = length Cs) as Hlens.
  { rewrite length_fmap. unfold range. rewrite length_seq. lia. }
  rewrite (fst_zip_le _ _ Hlens). split; [done|]. split.
  - rewrite length_zip_with_l_eq by done. rewrite length_fmap.
    unfold range. by rewrite length_seq.
  - apply NoDup_fmap_2; [|apply NoDup_seq].
    intros t1 t2. apply out_name_inj.
Qed.

Lemma one_file_per_trial_witness :
  res (run WeightedSampler.draw
           (small_world ["T.mtx"; "micro.dat"; "2"; "3"; "out"]
                        cycle3 None true halves)) = Ok tt ∧
  ∃ a3 a4 outName nsamples ntrials,
    argv (small_world ["T.mtx"; "micro.dat"; "2"; "3"; "out"]
                      cycle3 None true halves) !! 3 = Some a3 ∧
    py_int a3 = Some nsamples ∧
    argv (small_world ["T.mtx"; "micro.dat"; "2"; "3"; "out"]
                      cycle3 None true halves) !! 4 = Some a4 ∧
    py_int a4 = Some ntrials ∧
    argv (small_world ["T.mtx"; "micro.dat"; "2"; "3"; "out"]
                      cycle3 None true halves) !! 5 = Some outName ∧
    (written (out (run WeightedSampler.draw
       (small_world ["T.mtx"; "micro.dat"; "2"; "3"; "out"]
                    cycle3 None true halves)))).*1
      = out_name outName nsamples <$> range ntrials ∧
    length (written (out (run WeightedSampler.draw
       (small_world ["T.mtx"; "micro.dat"; "2"; "3"; "out"]
                    cycle3 None true halves)))) = Z.to_nat ntrials ∧
    NoDup (written (out (run WeightedSampler.draw
       (small_world ["T.mtx"; "micro.dat"; "2"; "3"; "out"]
                    cycle3 None true halves)))).*1.
Proof.
  split; [vm_compute; reflexivity|].
  apply one_file_per_trial. vm_compute. reflexivity.
Defined.

Example three_trials_file_names :
  (written (out (run WeightedSampler.draw
     (small_world ["T.mtx"; "micro.dat"; "2"; "3"; "out"]
                  cycle3 None true halves)))).*1
  = ["tCounts.uniform.out.2.0.mtx"; "tCounts.uniform.out.2.1.mtx";
     "tCounts.uniform.out.2.2.mtx"].
Proof. vm_compute. reflexivity. Qed.

(** ** Counts across trials *)

Lemma chained_lookup jumps d C Cs t Ct :
  chained (one_pass jumps d) C Cs → Cs !! t = Some Ct →
  grows_within (supported_by jumps) C Ct ∧
  total_count Ct = (total_count C + (Z.of_nat t + 1) * d)%Z.
Proof.
  revert C t. induction Cs as [|C1 Cs IH]; intros C t Hch Ht; [done|].
  destruct Hch as [[Hgrow Htot] Hch]. destruct t as [|t]; simpl in Ht.
  - injection Ht as <-. split; [done|]. lia.
  - destruct (IH _ _ Hch Ht) as [Hgrow' Htot']. split.
    + by eapply grows_within_trans.
    + rewrite Htot', Htot. lia.
Qed.

Lemma chained_lookup_le jumps d C Cs t1 t2 C1 C2 :
  chained (one_pass jumps d) C Cs → t1 ≤ t2 →
  Cs !! t1 = Some C1 → Cs !! t2 = Some C2 →
  grows_within (supported_by jumps) C1 C2.
Proof.
  revert C t1 t2. induction Cs as [|C0 Cs IH]; intros C t1 t2 Hch Hle H1 H2;
    [done|].
  destruct Hch as [_ Hch]. destruct t1 as [|t1]; simpl in H1.
  - injection H1 as <-. destruct t2 as [|t2]; simpl in H2.
    + injection H2 as <-. apply grows_within_refl.
    + by destruct (chained_lookup _ _ _ _ _ _ Hch H2).
  - destruct t2 as [|t2]; [lia|]. simpl in H2.
    eapply (IH _ t1 t2); [exact Hch|lia|done|done].
Qed.

Section Trials.

Variable draw_index : list Q → rng → result nat * rng.

(** What a run has written, in terms of the trial loop: the names are
    those of the first trials, and each matrix comes from the one before
    it (the first from the empty accumulator) by one pass over the
    states. *)
Lemma run_written w microTFn T a3 nsamples :
  argv w !! 1 = Some microTFn → mm_file w microTFn = Some T →
  argv w !! 3 = Some a3 → py_int a3 = Some nsamples →
  written (out (run draw_index w)) = [] ∨
  ∃ outName a4 ntrials jumps Cs,
    argv w !! 5 = Some outName ∧
    argv w !! 4 = Some a4 ∧ py_int a4 = Some ntrials ∧
    jumps_from w T (microTFn +:+ ".jumps") jumps ∧
    written (out (run draw_index w))
      = zip (out_name outName nsamples <$> range ntrials) Cs ∧
    length Cs ≤ Z.to_nat ntrials ∧
    (res (run draw_index w) = Ok tt → length Cs = Z.to_nat ntrials) ∧
    chained (one_pass jumps (Z.max 0 nsamples * Z.of_nat (nrows T)))
            (new_counts (nrows T) (nrows T)) Cs.
Proof.
  intros H1 HT H3 E3.
  destruct (run_cases draw_index w)
    as [(h & _ & Hw & _)|(microTFn' & a3' & a4 & outName & T' & ns & nt & jumps
                      & pre & H1' & H3' & H4 & H5 & E3' & E4 & _ & HT' & Hj
                      & Hpre & Hrun)]; [by left|right].
  assert (microTFn' = microTFn) as -> by congruence.
  assert (a3' = a3) as -> by congruence.
  assert (T' = T) as -> by congruence.
  assert (ns = nsamples) as -> by congruence.
  destruct (trials_written draw_index w jumps (nrows T) outName nsamples nt
              (seed w)) as (Cs & HCs & Hlen & Hch & Hall).
  exists outName, a4, nt, jumps, Cs. repeat (split; [done|]).
  rewrite Hrun. cbv zeta. cbn [res out final].
  rewrite written_app, Hpre, HCs. done.
Qed.

End Trials.

(** ** Rows and jump tables *)

Lemma filter_none {A} (P : A → Prop) `{!∀ x, Decision (P x)} (l : list A) :
  (∀ x, x ∈ l → ¬ P x) → filter P l = [].
Proof.
  induction l as [|x l IH]; intros Hnone; [done|].
  rewrite filter_cons_False by (apply Hnone; by left).
  apply IH. intros y Hy. apply Hnone. by right.
Qed.

Lemma filter_ext_in {A} (P1 P2 : A → Prop)
    `{!∀ x, Decision (P1 x), !∀ x, Decision (P2 x)} (l : list A) :
  (∀ x, x ∈ l → P1 x ↔ P2 x) → filter P1 l = filter P2 l.
Proof.
  induction l as [|x l IH]; intros Hiff; [done|].
  assert (filter P1 l = filter P2 l) as Hl.
  { apply IH. intros y Hy. apply Hiff. by right. }
  pose proof (Hiff x (list_elem_of_here _ _)) as Hx.
  destruct (decide (P1 x)).
  - rewrite !filter_cons_True by tauto. by rewrite Hl.
  - rewrite !filter_cons_False by tauto. by rewrite Hl.
Qed.

Lemma wf_row_cons lo hi c v r :
  wf_row lo hi ((c, v) :: r) = true ↔
  lo ≤ c ∧ c < hi ∧ wf_row (S c) hi r = true.
Proof.
  simpl. rewrite !andb_true_iff, Nat.leb_le, Nat.ltb_lt. tauto.
Qed.

(** Nothing is stored to the left of the first column of a row. *)
Lemma getitem_below lo hi r j :
  wf_row lo hi r = true → j < lo → getitem r j = 0%Q.
Proof.
  revert lo. induction r as [|[c v] r IH]; intros lo Hwf Hj; [done|].
  apply wf_row_cons in Hwf as (Hlo & _ & Hwf). simpl.
  rewrite decide_False by lia. apply (IH (S c)); [done|lia].
Qed.

Lemma nonzero_cons c v r :
  nonzero ((c, v) :: r) = if is_nonzero v then c :: nonzero r else nonzero r.
Proof.
  unfold nonzero. rewrite filter_cons. simpl.
  destruct (is_nonzero v); by case_decide.
Qed.

(** On a well-formed row, storage order is column order: the columns that
    [nonzero] reports are the columns, in increasing order, where the row
    reads as a nonzero value. *)
Lemma nonzero_ascending lo hi r :
  wf_row lo hi r = true →
  nonzero r = filter (λ j, is_nonzero (getitem r j) = true) (seq lo (hi - lo)).
Proof.
  revert lo. induction r as [|[c v] r IH]; intros lo Hwf.
  - symmetry. apply filter_none. intros j _. simpl. done.
  - apply wf_row_cons in Hwf as (Hlo & Hhi & Hwf).
    replace (hi - lo) with ((c - lo) + S (hi - S c)) by lia.
    rewrite seq_app. replace (lo + (c - lo)) with c by lia.
    simpl seq. rewrite filter_app, filter_cons.
    rewrite filter_none.
    2:{ intros j [Hj1 Hj2]%elem_of_seq. simpl.
        rewrite decide_False by lia.
        rewrite (getitem_below (S c) hi r j Hwf) by lia. by cbv. }
    rewrite (filter_ext_in _ (λ j, is_nonzero (getitem r j) = true)
               (seq (S c) (hi - S c))).
    2:{ intros j [Hj1 Hj2]%elem_of_seq. simpl.
        by rewrite decide_False by lia. }
    rewrite <- (IH (S c) Hwf), nonzero_cons. simpl.
    destruct (decide (c = c)) as [_|Hcc]; [|done].
    destruct (is_nonzero v); by case_decide.
Qed.

Lemma wf_lil_row T i r :
  wf_lil T = true → lil_rows T !! i = Some r → wf_row 0 (ncols T) r = true.
Proof.
  unfold wf_lil. rewrite forallb_forall. intros Hwf Hr.
  apply Hwf. apply list_elem_of_In. by eapply list_elem_of_lookup_2.
Qed.

Lemma wf_getrow T i : wf_lil T = true → wf_row 0 (ncols T) (getrow T i) = true.
Proof.
  intros Hwf. unfold getrow.
  destruct (lil_rows T !! i) as [r|] eqn:Hr; simpl; [|done].
  by eapply wf_lil_row.
Qed.

(** The code's table of a state is the table of the design document. *)
Lemma build_spec_build T i : wf_lil T = true → build T i = spec_build T i.
Proof.
  intros Hwf. unfold build, spec_build, nonzero_columns, matrix_get.
  rewrite (nonzero_ascending 0 (ncols T) _ (wf_getrow T i Hwf)).
  by rewrite Nat.sub_0_r.
Qed.

Lemma elem_of_nonzero_columns T i j :
  j ∈ nonzero_columns T i ↔
  j < ncols T ∧ is_nonzero (matrix_get T i j) = true.
Proof.
  unfold nonzero_columns. rewrite list_elem_of_filter, elem_of_seq.
  split; intros; intuition lia.
Qed.

(** C5: for every (well-formed) transition matrix the builder completes
    and leaves a table for every state [0 .. N-1] and for no other key; the
    table of state [i] has as destinations exactly the nonzero column
    indices of row [i], in the order in which the row stores them (which is
    the increasing order of the columns), and as weights the values of the
    row at these columns, position by position. *)
Theorem build_all_tables T g :
  wf_lil T = true →
  ∃ jumps msgs,
    build_all T (nrows T) g = Outcome (Ok jumps) (Print <$> msgs) g ∧
    (∀ i, i < nrows T →
          jumps !! i = Some (spec_build T i) ∧
          (spec_build T i).1 = nonzero (getrow T i) ∧
          (∀ j, j ∈ (spec_build T i).1 ↔
                j < ncols T ∧ is_nonzero (matrix_get T i j) = true) ∧
          (spec_build T i).2 = matrix_get T i <$> (spec_build T i).1) ∧
    (∀ i, nrows T ≤ i → jumps !! i = None).
Proof.
  intros Hwf.
  destruct (build_all_spec T (nrows T) g) as (jumps & msgs & Heq & Hl).
  exists jumps, msgs. split; [exact Heq|]. split.
  - intros i Hi. rewrite Hl, decide_True by done.
    rewrite (build_spec_build T i Hwf). split; [done|]. split.
    + rewrite <- (build_spec_build T i Hwf). done.
    + split; [|done]. intros j. apply elem_of_nonzero_columns.
  - intros i Hi. rewrite Hl. by rewrite decide_False by lia.
Qed.

Lemma build_all_tables_witness :
  wf_lil cycle3 = true ∧
  ∃ jumps msgs,
    build_all cycle3 (nrows cycle3) {| tape := halves; pos := 0 |}
    = Outcome (Ok jumps) (Print <$> msgs) {| tape := halves; pos := 0 |} ∧
    (∀ i, i < nrows cycle3 →
          jumps !! i = Some (spec_build cycle3 i) ∧
          (spec_build cycle3 i).1 = nonzero (getrow cycle3 i) ∧
          (∀ j, j ∈ (spec_build cycle3 i).1 ↔
                j < ncols cycle3 ∧ is_nonzero (matrix_get cycle3 i j) = true) ∧
          (spec_build cycle3 i).2
            = matrix_get cycle3 i <$> (spec_build cycle3 i).1) ∧
    (∀ i, nrows cycle3 ≤ i → jumps !! i = None).
Proof.
  split; [reflexivity|].
  apply (build_all_tables cycle3 {| tape := halves; pos := 0 |}).
  reflexivity.
Defined.

(** The row of the design document's test: nonzero entries at columns 2, 5
    and 9 (and a stored zero at column 7). *)
Example build_row_2_5_9 :
  build {| ncols := 10;
           lil_rows := [[(2, (1 # 10)%Q); (5, (3 # 10)%Q); (7, 0%Q);
                         (9, (6 # 10)%Q)]] |} 0
  = ([2; 5; 9], [(1 # 10)%Q; (3 # 10)%Q; (6 # 10)%Q]).
Proof. reflexivity. Qed.

(** ** What a count matrix holds when it is written *)

Section Accumulation.

Variable draw_index : list Q → rng → result nat * rng.

(** C1, as the script has it: [C] is created empty once, before the
    first trial, and is never reset.  The matrix written at trial [t]
    therefore holds the transitions of the trials [0 .. t]: its counts sum
    to [t + 1] times the number of draws of one trial, and it holds at
    least the counts of every matrix written before it. *)
Theorem counts_accumulate_over_trials w microTFn T a3 nsamples t fn C :
  argv w !! 1 = Some microTFn → mm_file w microTFn = Some T →
  argv w !! 3 = Some a3 → py_int a3 = Some nsamples →
  written (out (run draw_index w)) !! t = Some (fn, C) →
  total_count C
    = ((Z.of_nat t + 1) * (Z.max 0 nsamples * Z.of_nat (nrows T)))%Z ∧
  ∀ t' fn' C',
    t' ≤ t → written (out (run draw_index w)) !! t' = Some (fn', C') →
    ∀ i j, (count_at C' i j ≤ count_at C i j)%Z.
Proof.
  intros H1 HT H3 E3 Ht.
  destruct (run_written draw_index w microTFn T a3 nsamples H1 HT H3 E3)
    as [Hnil|(outName & a4 & nt & jumps & Cs & _ & _ & _ & _ & Hw & _ & _
              & Hch)].
  { rewrite Hnil in Ht. done. }
  rewrite Hw in Ht |- *.
  apply lookup_zip_with_Some in Ht as (fn0 & C0 & [= -> ->] & _ & HC).
  destruct (chained_lookup _ _ _ _ _ _ Hch HC) as [_ Htot]. split.
  - rewrite Htot, total_count_new. lia.
  - intros t' fn' C' Hle Ht' i j.
    apply lookup_zip_with_Some in Ht' as (fn1 & C1 & [= -> ->] & _ & HC').
    destruct (chained_lookup_le _ _ _ _ _ _ _ _ Hch Hle HC' HC) as [_ Hgrow].
    apply Hgrow.
Qed.

End Accumulation.

Lemma counts_accumulate_over_trials_witness :
  argv (small_world ["T.mtx"; "micro.dat"; "1"; "2"; "out"]
                    loop1 None true halves) !! 1 = Some "T.mtx" ∧
  total_count {| cshape := (1, 1); counts := {[(0, 0) := 2%Z]} |}
  = ((Z.of_nat 1 + 1) * (Z.max 0 1 * Z.of_nat (nrows loop1)))%Z.
Proof.
  split; [reflexivity|].
  apply (counts_accumulate_over_trials WeightedSampler.draw
           (small_world ["T.mtx"; "micro.dat"; "1"; "2"; "out"]
                        loop1 None true halves)
           "T.mtx" loop1 "1" 1%Z 1 "tCounts.uniform.out.1.1.mtx"
           {| cshape := (1, 1); counts := {[(0, 0) := 2%Z]} |});
    vm_compute; reflexivity.
Defined.

(** C1 as stated fails: with one state, one sample per state and two
    trials, two values are drawn in the whole run, one per trial, yet the
    matrix written for trial 1 holds two transitions: the one of trial 0
    is still in it. *)
Lemma counts_carry_over_between_trials :
  written (out (run WeightedSampler.draw
     (small_world ["T.mtx"; "micro.dat"; "1"; "2"; "out"]
                  loop1 None true halves)))
  = [("tCounts.uniform.out.1.0.mtx",
      {| cshape := (1, 1); counts := {[(0, 0) := 1%Z]} |});
     ("tCounts.uniform.out.1.1.mtx",
      {| cshape := (1, 1); counts := {[(0, 0) := 2%Z]} |})] ∧
  pos (final (run WeightedSampler.draw
     (small_world ["T.mtx"; "micro.dat"; "1"; "2"; "out"]
                  loop1 None true halves))) = 2.
Proof. split; vm_compute; reflexivity. Qed.


(** ** The weighted sampler of the design document *)

Lemma frac_range q : (0 <= WeightedSampler.frac q < 1)%Q.
Proof.
  unfold WeightedSampler.frac.
  pose proof (Qfloor_le q) as Hle. pose proof (Qlt_floor q) as Hlt.
  rewrite inject_Z_plus in Hlt. change (inject_Z 1) with 1%Q in Hlt.
  split; lra.
Qed.

Lemma first_exceeding_lt u acc weights :
  (acc <= u)%Q → (u < acc + WeightedSampler.total weights)%Q →
  WeightedSampler.first_exceeding u acc weights < length weights.
Proof.
  revert acc. induction weights as [|x weights IH]; intros acc Hle Hlt.
  - simpl in Hlt. lra.
  - simpl in *. destruct (Qle_bool (acc + x) u) eqn:E; [|lia].
    apply Qle_bool_iff in E. apply -> Nat.succ_lt_mono.
    apply IH; [done|]. lra.
Qed.

(** For weights of positive sum the modelled draw returns an index inside
    the weight sequence. *)
Lemma draw_in_bounds : sampler_in_bounds WeightedSampler.draw.
Proof.
  intros weights g Hpos. unfold WeightedSampler.draw.
  destruct weights as [|x weights]; [simpl in Hpos; lra|].
  destruct (Qeq_bool _ 0) eqn:E.
  { apply Qeq_bool_iff in E. rewrite E in Hpos. lra. }
  unfold WeightedSampler.uniform. eexists _, _. split; [reflexivity|].
  pose proof (frac_range (tape g (pos g))) as [H0 H1].
  apply first_exceeding_lt.
  - apply Qmult_le_0_compat; lra.
  - apply Qlt_le_trans with (1 * WeightedSampler.total (x :: weights))%Q;
      [by apply Qmult_lt_compat_r|lra].
Qed.

(** ** The support of a written count matrix *)

Section Support.

Variable draw_index : list Q → rng → result nat * rng.

(** C9, as the script has it: every positive entry [(i, j)] of a written
    count matrix is a transition of the jump tables the run used, that of
    the cache file when there is one, those built from the matrix
    otherwise; and when the tables were built from the (well-formed)
    matrix, [(i, j)] is a nonzero entry of the matrix.  No assumption on
    the draw is needed: an index outside [possible_j] raises [IndexError]
    at line 111 and nothing is written after it. *)
Theorem written_support_within_jump_tables w microTFn T fn C i j :
  argv w !! 1 = Some microTFn → mm_file w microTFn = Some T →
  (fn, C) ∈ written (out (run draw_index w)) → (0 < count_at C i j)%Z →
  ∃ jumps,
    jumps_from w T (microTFn +:+ ".jumps") jumps ∧
    supported_by jumps i j ∧
    (path_exists w (microTFn +:+ ".jumps") = false → wf_lil T = true →
     i < nrows T ∧ j < ncols T ∧ is_nonzero (matrix_get T i j) = true).
Proof.
  intros H1 HT Hin Hpos.
  destruct (run_cases draw_index w)
    as [(h & _ & Hw & _)|(microTFn' & a3 & a4 & outName & T' & ns & nt & jumps
                      & pre & H1' & _ & _ & _ & _ & _ & _ & HT' & Hj
                      & Hpre & Hrun)].
  { rewrite Hw in Hin. by apply not_elem_of_nil in Hin. }
  assert (microTFn' = microTFn) as -> by congruence.
  assert (T' = T) as -> by congruence.
  destruct (trials_written draw_index w jumps (nrows T) outName ns nt (seed w))
    as (Cs & HCs & _ & Hch & _).
  rewrite Hrun in Hin. cbv zeta in Hin. cbn [res out final] in Hin.
  rewrite written_app, Hpre, HCs in Hin. cbn [app] in Hin.
  apply list_elem_of_lookup in Hin as [t Ht].
  apply lookup_zip_with_Some in Ht as (fn0 & C0 & [= -> ->] & _ & HC).
  destruct (chained_lookup _ _ _ _ _ _ Hch HC) as [[_ Hgrow] _].
  assert (supported_by jumps i j) as Hsup.
  { apply Hgrow. by rewrite count_at_new. }
  exists jumps. split; [done|]. split; [done|].
  intros Hnocache Hwf. unfold jumps_from in Hj. rewrite Hnocache in Hj.
  destruct Hj as [_ Hlook]. destruct Hsup as (jt & Hjt & Hjin).
  rewrite Hlook in Hjt. case_decide as Hi; [|done].
  injection Hjt as <-. split; [done|].
  rewrite (build_spec_build T i Hwf) in Hjin.
  by apply elem_of_nonzero_columns.
Qed.

End Support.

Lemma written_support_within_jump_tables_witness :
  (0 < count_at (cycle3_counts 2) 0 1)%Z ∧
  ∃ jumps,
    jumps_from (small_world ["T.mtx"; "micro.dat"; "2"; "1"; "out"]
                            cycle3 None true halves)
               cycle3 ("T.mtx" +:+ ".jumps") jumps ∧
    supported_by jumps 0 1 ∧
    (path_exists (small_world ["T.mtx"; "micro.dat"; "2"; "1"; "out"]
                              cycle3 None true halves)
                 ("T.mtx" +:+ ".jumps") = false →
     wf_lil cycle3 = true →
     0 < nrows cycle3 ∧ 1 < ncols cycle3 ∧
     is_nonzero (matrix_get cycle3 0 1) = true).
Proof.
  split; [vm_compute; reflexivity|].
  apply (written_support_within_jump_tables WeightedSampler.draw
           (small_world ["T.mtx"; "micro.dat"; "2"; "1"; "out"]
                        cycle3 None true halves)
           "T.mtx" cycle3 "tCounts.uniform.out.2.0.mtx" (cycle3_counts 2)
           0 1).
  - reflexivity.
  - reflexivity.
  - vm_compute. left.
  - vm_compute. reflexivity.
Defined.

(** C9 as stated fails when a cache file is present: the identity matrix
    next to the cached tables of another chain.  The draw stays within
    bounds and the written matrix counts the transitions [0 → 1] and
    [1 → 0], where the matrix holds zero. *)
Lemma stale_cache_support_outside_matrix :
  sampler_in_bounds WeightedSampler.draw ∧
  written (out (run WeightedSampler.draw
     (small_world ["T.mtx"; "micro.dat"; "1"; "1"; "out"]
                  identity2 (Some swapped_jumps) true halves)))
  = [("tCounts.uniform.out.1.0.mtx",
      {| cshape := (2, 2);
         counts := {[(0, 1) := 1%Z; (1, 0) := 1%Z]} |})] ∧
  matrix_get identity2 0 1 = 0%Q ∧
  matrix_get identity2 1 0 = 0%Q.
Proof.
  split; [apply draw_in_bounds|].
  split; [vm_compute; reflexivity|]. split; reflexivity.
Qed.


(** ** Saving the cache *)

Lemma get_jumps_unwritable w T NumStates jumpFn g :
  path_exists w jumpFn = false → writable w jumpFn = false →
  ∃ msgs,
    get_jumps w T NumStates jumpFn g
    = Outcome (Halt (Raise IOError))
              (Print MsgMakingJumps :: (Print <$> msgs)
                 ++ [Print (MsgPickling jumpFn)]) g.
Proof.
  intros Hex Hwr. unfold get_jumps. rewrite Hex.
  destruct (build_all_spec T NumStates g) as (jumps & msgs & Heq & _).
  exists msgs. unfold print. rewrite bind_emit.
  rewrite (bind_ok _ _ g jumps) by (by rewrite Heq). rewrite Heq.
  cbn [res out final]. unfold save_jumps, print. rewrite Hwr. done.
Qed.

(** C3, as the script has it: the save is not guarded.  When the cache
    file is absent and cannot be written, the run ends with the [IOError]
    of the save, right after announcing the pickling; nothing has been drawn
    and no count matrix is written. *)
Theorem failed_cache_save_aborts draw_index w prog microTFn microstatesFn
    a3 a4 outName rest nsamples ntrials T mInfo :
  argv w = prog :: microTFn :: microstatesFn :: a3 :: a4 :: outName :: rest →
  py_int a3 = Some nsamples → py_int a4 = Some ntrials →
  path_exists w microTFn = true → mm_file w microTFn = Some T →
  microstate_file w microstatesFn = Some mInfo →
  path_exists w (microTFn +:+ ".jumps") = false →
  writable w (microTFn +:+ ".jumps") = false →
  (∃ msgs,
     run draw_index w
     = Outcome (Halt (Raise IOError))
         ([MMRead microTFn; Print (MsgMatrix T);
           LoadMicrostates microstatesFn; Print (MsgMInfo mInfo);
           Print MsgMakingJumps]
          ++ (Print <$> msgs) ++ [Print (MsgPickling (microTFn +:+ ".jumps"))])
         (seed w)) ∧
  written (out (run draw_index w)) = [].
Proof.
  intros Hargv E3 E4 Hex HT HM Hnocache Hwr.
  destruct (get_jumps_unwritable w T (nrows T) _ (seed w) Hnocache Hwr)
    as (msgs & Hj).
  assert (run draw_index w
          = Outcome (Halt (Raise IOError))
              ([MMRead microTFn; Print (MsgMatrix T);
                LoadMicrostates microstatesFn; Print (MsgMInfo mInfo);
                Print MsgMakingJumps]
               ++ (Print <$> msgs)
               ++ [Print (MsgPickling (microTFn +:+ ".jumps"))])
              (seed w)) as Hrun.
  { unfold run. rewrite (main_eq _ _ _ _ _ _ _ _ _ _ Hargv).
    unfold int. rewrite E3, bind_ret_l, E4, bind_ret_l.
    pose proof (read_matrix_spec w microTFn (seed w)) as HT'.
    rewrite Hex, HT in HT'.
    rewrite (bind_ok _ _ _ T) by (by rewrite HT'). rewrite HT'.
    cbn [res out final].
    pose proof (read_microstates_spec w microstatesFn (seed w)) as HM'.
    rewrite HM in HM'.
    rewrite (bind_ok _ _ _ tt) by (by rewrite HM'). rewrite HM'.
    cbn [res out final].
    rewrite (bind_halt _ _ _ (Raise IOError)) by (by rewrite Hj).
    rewrite Hj. cbn [res out final]. done. }
  split; [by exists msgs|]. rewrite Hrun. cbn [out].
  rewrite !written_app, written_prints. done.
Qed.

Lemma failed_cache_save_aborts_witness :
  writable (cache_unwritable_world ["T.mtx"; "micro.dat"; "1"; "1"; "out"]
                                   loop1 halves)
           ("T.mtx" +:+ ".jumps") = false ∧
  written (out (run WeightedSampler.draw
     (cache_unwritable_world ["T.mtx"; "micro.dat"; "1"; "1"; "out"]
                             loop1 halves))) = [].
Proof.
  split; [reflexivity|].
  apply (failed_cache_save_aborts WeightedSampler.draw
           (cache_unwritable_world ["T.mtx"; "micro.dat"; "1"; "1"; "out"]
                                   loop1 halves)
           "sample.py" "T.mtx" "micro.dat" "1" "1" "out" [] 1%Z 1%Z
           loop1 "mInfo"); reflexivity.
Defined.

(** C3 as stated fails: in a directory where only the cache file cannot be
    written the run stops with [IOError] before any draw and writes no
    count matrix, while the same run with a writable cache file writes
    one. *)
Lemma failed_cache_save_is_fatal :
  res (run WeightedSampler.draw
     (cache_unwritable_world ["T.mtx"; "micro.dat"; "1"; "1"; "out"]
                             loop1 halves)) = Halt (Raise IOError) ∧
  written (out (run WeightedSampler.draw
     (cache_unwritable_world ["T.mtx"; "micro.dat"; "1"; "1"; "out"]
                             loop1 halves))) = [] ∧
  pos (final (run WeightedSampler.draw
     (cache_unwritable_world ["T.mtx"; "micro.dat"; "1"; "1"; "out"]
                             loop1 halves))) = 0 ∧
  length (written (out (run WeightedSampler.draw
     (small_world ["T.mtx"; "micro.dat"; "1"; "1"; "out"]
                  loop1 None true halves)))) = 1.
Proof. repeat split; vm_compute; reflexivity. Qed.


(** ** Runs that load the cache *)

Section Cache.

Variable draw_index : list Q → rng → result nat * rng.

(** With a cache file in place, what follows the reading of the matrix
    looks at the matrix for its number of rows only. *)
Lemma after_matrix_cached w fn T1 T2 microstatesFn jumpFn outName
    nsamples ntrials g :
  path_exists w jumpFn = true → nrows T1 = nrows T2 →
  (read_microstates (with_matrix w fn T1) microstatesFn >>
   let* jumps := get_jumps (with_matrix w fn T1) T1 (nrows T1) jumpFn in
   trials draw_index (with_matrix w fn T1) jumps (nrows T1) outName
          nsamples ntrials) g
  = (read_microstates (with_matrix w fn T2) microstatesFn >>
     let* jumps := get_jumps (with_matrix w fn T2) T2 (nrows T2) jumpFn in
     trials draw_index (with_matrix w fn T2) jumps (nrows T2) outName
            nsamples ntrials) g.
Proof.
  intros Hcache Hrows. unfold get_jumps. cbn [path_exists with_matrix].
  rewrite Hcache, Hrows. reflexivity.
Qed.

(** C10: if the cache file [<matrix>.jumps] exists, two runs that differ
    only in the values of the matrix read from the matrix file, the shapes
    being equal, end the same way, draw the same values from the random
    source and write the same count matrices under the same names: for
    every random source the outputs coincide, so they are identically
    distributed.  The matrix is looked at for [shape[0]] and for the
    [print T] of line 47 only. *)
Theorem cached_run_ignores_matrix_values w microTFn T1 T2 :
  argv w !! 1 = Some microTFn →
  path_exists w (microTFn +:+ ".jumps") = true →
  shape T1 = shape T2 →
  res (run draw_index (with_matrix w microTFn T1))
  = res (run draw_index (with_matrix w microTFn T2)) ∧
  written (out (run draw_index (with_matrix w microTFn T1)))
  = written (out (run draw_index (with_matrix w microTFn T2))) ∧
  final (run draw_index (with_matrix w microTFn T1))
  = final (run draw_index (with_matrix w microTFn T2)).
Proof.
  intros H1 Hcache Hshape.
  assert (nrows T1 = nrows T2) as Hrows by (by injection Hshape).
  unfold run.
  destruct (decide (length (argv w) < 6)) as [Hlen|Hlen].
  { unfold main. cbn [argv with_matrix]. by rewrite !decide_True by done. }
  destruct (argv w)
    as [|prog [|fn [|microstatesFn [|a3 [|a4 [|outName rest]]]]]]
    eqn:Hargv; simpl in Hlen; try lia.
  injection H1 as ->.
  rewrite (main_eq _ (with_matrix w microTFn T1) _ _ _ _ _ _ _ _ Hargv).
  rewrite (main_eq _ (with_matrix w microTFn T2) _ _ _ _ _ _ _ _ Hargv).
  unfold int.
  destruct (py_int a3) as [ns|]; [rewrite !bind_ret_l|done].
  destruct (py_int a4) as [nt|]; [rewrite !bind_ret_l|done].
  cbn [seed with_matrix].
  pose proof (read_matrix_spec (with_matrix w microTFn T1) microTFn (seed w))
    as HT1.
  pose proof (read_matrix_spec (with_matrix w microTFn T2) microTFn (seed w))
    as HT2.
  cbn [path_exists mm_file with_matrix] in HT1, HT2.
  rewrite decide_True in HT1, HT2 by done.
  destruct (path_exists w microTFn).
  2:{ rewrite !(bind_halt _ _ _ (Exit 1)) by (by rewrite ?HT1, ?HT2).
      by rewrite HT1, HT2. }
  rewrite (bind_ok _ _ _ T1) by (by rewrite HT1).
  rewrite (bind_ok _ _ _ T2) by (by rewrite HT2).
  rewrite HT1, HT2. cbn [res out final].
  rewrite (after_matrix_cached w microTFn T1 T2 _ _ _ _ _ _ Hcache Hrows).
  done.
Qed.

End Cache.

Lemma cached_run_ignores_matrix_values_witness :
  shape identity2 = shape {| ncols := 2; lil_rows := [[(1, 1%Q)]; [(0, 1%Q)]] |} ∧
  written (out (run WeightedSampler.draw
     (with_matrix (small_world ["T.mtx"; "micro.dat"; "1"; "1"; "out"]
                               identity2 (Some swapped_jumps) true halves)
                  "T.mtx" identity2)))
  = written (out (run WeightedSampler.draw
     (with_matrix (small_world ["T.mtx"; "micro.dat"; "1"; "1"; "out"]
                               identity2 (Some swapped_jumps) true halves)
                  "T.mtx"
                  {| ncols := 2; lil_rows := [[(1, 1%Q)]; [(0, 1%Q)]] |}))).
Proof.
  split; [reflexivity|].
  apply (cached_run_ignores_matrix_values WeightedSampler.draw
           (small_world ["T.mtx"; "micro.dat"; "1"; "1"; "out"]
                        identity2 (Some swapped_jumps) true halves)
           "T.mtx" identity2
           {| ncols := 2; lil_rows := [[(1, 1%Q)]; [(0, 1%Q)]] |});
    reflexivity.
Defined.


(** ** States without outgoing transitions *)

Lemma is_nonzero_Qeq v q : (v == q)%Q → is_nonzero v = is_nonzero q.
Proof.
  intros Heq. unfold is_nonzero. f_equal.
  destruct (Qeq_bool q 0) eqn:E.
  - apply Qeq_bool_iff. apply Qeq_bool_iff in E. by rewrite Heq.
  - destruct (Qeq_bool v 0) eqn:E'; [|done].
    apply Qeq_bool_iff in E'. rewrite Heq in E'.
    apply Qeq_bool_iff in E'. congruence.
Qed.

(** A row that reads as zero everywhere gives the empty jump table. *)
Lemma build_zero_row T i :
  wf_lil T = true →
  (∀ j, j < ncols T → (matrix_get T i j == 0)%Q) →
  build T i = ([], []).
Proof.
  intros Hwf Hzero. rewrite (build_spec_build T i Hwf).
  unfold spec_build, nonzero_columns. rewrite filter_none; [done|].
  intros j [_ Hj]%elem_of_seq.
  rewrite (is_nonzero_Qeq _ 0%Q) by (apply Hzero; lia). by cbv.
Qed.

(** Whatever the sampler does, a positive number of samples from an empty
    table never completes: either the sampler stops the run or line 111
    raises [IndexError]. *)
Lemma empty_table_never_skipped draw_index i jprobs n C g :
  (0 < n)%Z →
  ∃ h, res (sample_state draw_index i [] jprobs n C g) = Halt h.
Proof.
  intros Hn. unfold sample_state, range.
  destruct (Z.to_nat n) as [|m] eqn:E; [lia|]. simpl seq. rewrite foldM_cons.
  unfold bind at 1, draw_step, call_draw_index, bind.
  destruct (draw_index jprobs g) as [[k|h] g']; cbn [res out final].
  - exists (Raise IndexError). unfold index. by rewrite lookup_nil.
  - by exists h.
Qed.

(** C2: a state whose row of the (well-formed) matrix is entirely zero has
    the empty jump table, and a request for [n > 0] samples from it stops
    with the named error [DegenerateDistributionError], raised by the draw
    on the empty weights; the state is not skipped, nothing is recorded and
    the random source is not advanced. *)
Theorem empty_row_raises_degenerate T i n C g :
  wf_lil T = true →
  (∀ j, j < ncols T → (matrix_get T i j == 0)%Q) →
  (0 < n)%Z →
  build T i = ([], []) ∧
  sample_state WeightedSampler.draw i (build T i).1 (build T i).2 n C g
  = Outcome (Halt (Raise DegenerateDistributionError)) [] g.
Proof.
  intros Hwf Hzero Hn. rewrite (build_zero_row T i Hwf Hzero).
  split; [done|]. unfold sample_state, range. cbn [fst snd].
  destruct (Z.to_nat n) as [|m] eqn:E; [lia|]. simpl seq. by rewrite foldM_cons.
Qed.

Lemma empty_row_raises_degenerate_witness :
  (0 < 5)%Z ∧
  sample_state WeightedSampler.draw 1
    (build {| ncols := 2; lil_rows := [[(1, 1%Q)]; [(0, 0%Q)]] |} 1).1
    (build {| ncols := 2; lil_rows := [[(1, 1%Q)]; [(0, 0%Q)]] |} 1).2
    5 (new_counts 2 2) {| tape := halves; pos := 0 |}
  = Outcome (Halt (Raise DegenerateDistributionError)) []
            {| tape := halves; pos := 0 |}.
Proof.
  split; [lia|].
  apply (empty_row_raises_degenerate
           {| ncols := 2; lil_rows := [[(1, 1%Q)]; [(0, 0%Q)]] |} 1 5
           (new_counts 2 2) {| tape := halves; pos := 0 |}).
  - reflexivity.
  - intros j Hj. simpl in Hj.
    destruct j as [|[|j]]; [reflexivity|reflexivity|lia].
  - lia.
Defined.

(** The whole script on a matrix with an all-zero second row: the run
    stops with the named error before anything is written. *)
Example run_with_empty_row :
  res (run WeightedSampler.draw
     (small_world ["T.mtx"; "micro.dat"; "5"; "1"; "out"]
                  {| ncols := 2; lil_rows := [[(1, 1%Q)]; [(0, 0%Q)]] |}
                  None true halves))
  = Halt (Raise DegenerateDistributionError) ∧
  written (out (run WeightedSampler.draw
     (small_world ["T.mtx"; "micro.dat"; "5"; "1"; "out"]
                  {| ncols := 2; lil_rows := [[(1, 1%Q)]; [(0, 0%Q)]] |}
                  None true halves))) = [].
Proof. split; vm_compute; reflexivity. Qed.

(** ** The deterministic three-state cycle *)

Section Deterministic.

Variable draw_index : list Q → rng → result nat * rng.
Hypothesis draw_ok : sampler_in_bounds draw_index.

(** With a single destination of positive weight, a draw can only land on
    it. *)
Lemma draw_step_single i j v C g :
  (0 < v)%Q → i < (cshape C).1 → j < (cshape C).2 →
  ∃ g', draw_step draw_index i [j] [v] C g
        = Outcome (Ok (add_count C i j 1)) [] g'.
Proof.
  intros Hv Hi Hj.
  destruct (draw_ok [v] g) as (k & g' & Hdraw & Hk).
  { simpl. lra. }
  exists g'. unfold draw_step, call_draw_index, bind. rewrite Hdraw.
  cbn [res out final]. simpl in Hk. assert (k = 0) as -> by lia.
  unfold index, increment. cbn [lookup list_lookup ret res out final].
  by rewrite decide_True by done.
Qed.

Lemma add_count_add_count C i j n m :
  add_count (add_count C i j n) i j m = add_count C i j (n + m).
Proof.
  unfold add_count, count_at. simpl. f_equal.
  rewrite lookup_insert_eq, insert_insert_eq. simpl. f_equal. lia.
Qed.

Lemma sample_loop_single i j v C g a n :
  (0 < v)%Q → i < (cshape C).1 → j < (cshape C).2 →
  ∃ g', foldM (λ C _, draw_step draw_index i [j] [v] C) (seq a (S n)) C g
        = Outcome (Ok (add_count C i j (Z.of_nat (S n)))) [] g'.
Proof.
  intros Hv. revert C g a. induction n as [|n IH]; intros C g a Hi Hj.
  - destruct (draw_step_single i j v C g Hv Hi Hj) as (g' & Hstep).
    exists g'. simpl seq. rewrite foldM_cons.
    rewrite (bind_ok _ _ _ (add_count C i j 1)) by (by rewrite Hstep).
    by rewrite Hstep.
  - destruct (draw_step_single i j v C g Hv Hi Hj) as (g1 & Hstep).
    destruct (IH (add_count C i j 1) g1 (S a) Hi Hj) as (g' & Hrest).
    exists g'. change (seq a (S (S n))) with (a :: seq (S a) (S n)).
    rewrite foldM_cons.
    rewrite (bind_ok _ _ _ (add_count C i j 1)) by (by rewrite Hstep).
    rewrite Hstep. cbn [res out final]. rewrite Hrest. cbn [res out final app].
    rewrite add_count_add_count.
    by replace (1 + Z.of_nat (S n))%Z with (Z.of_nat (S (S n))) by lia.
Qed.

Lemma sample_from_single (jumps : gmap nat jump_table) NumSamplesPerState
    C i j v n g :
  jumps !! i = Some (([j], [v]) : jump_table) → (0 < v)%Q →
  NumSamplesPerState !! i = Some (Z.of_nat (S n)) →
  i < (cshape C).1 → j < (cshape C).2 →
  ∃ g', sample_from draw_index jumps NumSamplesPerState C i g
        = Outcome (Ok (add_count C i j (Z.of_nat (S n)))) [] g'.
Proof.
  intros Hjt Hv Hn Hi Hj. unfold sample_from, dict_get, index.
  rewrite Hjt, Hn, !bind_ret_l. cbn [fst snd].
  unfold sample_state, range. rewrite Nat2Z.id.
  by apply sample_loop_single.
Qed.

End Deterministic.

Lemma get_jumps_built w T NumStates jumpFn g :
  path_exists w jumpFn = false → writable w jumpFn = true →
  ∃ jumps evs,
    get_jumps w T NumStates jumpFn g = Outcome (Ok jumps) evs g ∧
    written evs = [] ∧
    ∀ i, jumps !! i =
         if decide (i < NumStates) then Some (build T i) else None.
Proof.
  intros Hex Hwr. unfold get_jumps. rewrite Hex.
  destruct (build_all_spec T NumStates g) as (jumps & msgs & Heq & Hl).
  exists jumps. eexists. unfold print. rewrite bind_emit.
  rewrite (bind_ok _ _ g jumps) by (by rewrite Heq). rewrite Heq.
  cbn [res out final]. unfold save_jumps, print. rewrite Hwr.
  split; [reflexivity|]. split; [|done].
  change (written (Print MsgMakingJumps :: ?l)) with (written l).
  by rewrite written_app, written_prints.
Qed.

(** The tables built from a matrix that reads as the three-state cycle. *)
Lemma cycle_tables T :
  wf_lil T = true → ncols T = 3 →
  same_values (to_dense T) [[0; 1; 0]; [0; 0; 1]; [1; 0; 0]]%Q →
  nrows T = 3 ∧
  ∃ v0 v1 v2,
    (0 < v0)%Q ∧ (0 < v1)%Q ∧ (0 < v2)%Q ∧
    build T 0 = ([1], [v0]) ∧ build T 1 = ([2], [v1]) ∧
    build T 2 = ([0], [v2]).
Proof.
  intros Hwf Hcols Hsame.
  assert (∀ i, build T i = spec_build T i) as Hbuild
    by (intros; by apply build_spec_build).
  destruct T as [nc rows]. simpl in Hcols. subst nc.
  unfold same_values, to_dense in Hsame. cbn [ncols lil_rows] in Hsame.
  rewrite Forall2_fmap_l in Hsame.
  apply Forall2_cons_inv_r in Hsame as (r0 & rows0 & H0 & Hsame & ->).
  apply Forall2_cons_inv_r in Hsame as (r1 & rows1 & H1 & Hsame & ->).
  apply Forall2_cons_inv_r in Hsame as (r2 & rows2 & H2 & Hsame & ->).
  apply Forall2_nil_inv_r in Hsame as ->.
  split; [reflexivity|].
  unfold compose in H0, H1, H2. simpl in H0, H1, H2.
  apply Forall2_cons_1 in H0 as [H00 H0]. apply Forall2_cons_1 in H0 as [H01 H0].
  apply Forall2_cons_1 in H0 as [H02 _].
  apply Forall2_cons_1 in H1 as [H10 H1]. apply Forall2_cons_1 in H1 as [H11 H1].
  apply Forall2_cons_1 in H1 as [H12 _].
  apply Forall2_cons_1 in H2 as [H20 H2]. apply Forall2_cons_1 in H2 as [H21 H2].
  apply Forall2_cons_1 in H2 as [H22 _].
  exists (getitem r0 1), (getitem r1 2), (getitem r2 0).
  split; [lra|]. split; [lra|]. split; [lra|].
  rewrite !Hbuild. unfold spec_build, nonzero_columns, matrix_get, getrow.
  cbn [ncols lil_rows lookup list_lookup default seq]. unfold id.
  repeat split.
  - rewrite (filter_cons_False _ 0)
      by (rewrite (is_nonzero_Qeq _ _ H00); by cbv).
    rewrite (filter_cons_True _ 1)
      by (rewrite (is_nonzero_Qeq _ _ H01); by cbv).
    rewrite (filter_cons_False _ 2)
      by (rewrite (is_nonzero_Qeq _ _ H02); by cbv).
    done.
  - rewrite (filter_cons_False _ 0)
      by (rewrite (is_nonzero_Qeq _ _ H10); by cbv).
    rewrite (filter_cons_False _ 1)
      by (rewrite (is_nonzero_Qeq _ _ H11); by cbv).
    rewrite (filter_cons_True _ 2)
      by (rewrite (is_nonzero_Qeq _ _ H12); by cbv).
    done.
  - rewrite (filter_cons_True _ 0)
      by (rewrite (is_nonzero_Qeq _ _ H20); by cbv).
    rewrite (filter_cons_False _ 1)
      by (rewrite (is_nonzero_Qeq _ _ H21); by cbv).
    rewrite (filter_cons_False _ 2)
      by (rewrite (is_nonzero_Qeq _ _ H22); by cbv).
    done.
Qed.

Section CycleRun.

Variable draw_index : list Q → rng → result nat * rng.
Hypothesis draw_ok : sampler_in_bounds draw_index.

(** One pass over three states that each have a single successor. *)
Lemma sample_all_cycle (jumps : gmap nat jump_table) v0 v1 v2 n g :
  jumps !! 0 = Some (([1], [v0]) : jump_table) →
  jumps !! 1 = Some (([2], [v1]) : jump_table) →
  jumps !! 2 = Some (([0], [v2]) : jump_table) →
  (0 < v0)%Q → (0 < v1)%Q → (0 < v2)%Q →
  ∃ g', sample_all draw_index jumps (replicate 3 (Z.of_nat (S n))) 3
                   (new_counts 3 3) g
        = Outcome (Ok (cycle3_counts (Z.of_nat (S n)))) [] g'.
Proof.
  intros H0 H1 H2 Hv0 Hv1 Hv2.
  destruct (sample_from_single draw_index draw_ok jumps
              (replicate 3 (Z.of_nat (S n))) (new_counts 3 3) 0 1 v0 n g
              H0 Hv0 eq_refl) as (g1 & S0); [simpl; lia..|].
  set (C1 := add_count (new_counts 3 3) 0 1 (Z.of_nat (S n))) in *.
  destruct (sample_from_single draw_index draw_ok jumps
              (replicate 3 (Z.of_nat (S n))) C1 1 2 v1 n g1
              H1 Hv1 eq_refl) as (g2 & S1); [simpl; lia..|].
  set (C2 := add_count C1 1 2 (Z.of_nat (S n))) in *.
  destruct (sample_from_single draw_index draw_ok jumps
              (replicate 3 (Z.of_nat (S n))) C2 2 0 v2 n g2
              H2 Hv2 eq_refl) as (g3 & S2); [simpl; lia..|].
  exists g3. unfold sample_all. change (seq 0 3) with [0; 1; 2].
  rewrite foldM_cons, (bind_ok _ _ _ C1) by (by rewrite S0).
  rewrite S0. cbn [res out final].
  rewrite foldM_cons, (bind_ok _ _ _ C2) by (by rewrite S1).
  rewrite S1. cbn [res out final].
  rewrite foldM_cons, (bind_ok _ _ _ _) by (by rewrite S2).
  rewrite S2. cbn [res out final foldM ret app].
  reflexivity.
Qed.

(** The trial loop for one trial of a hundred samples per state. *)
Lemma trials_cycle w (jumps : gmap nat jump_table) v0 v1 v2 outName g :
  jumps !! 0 = Some (([1], [v0]) : jump_table) →
  jumps !! 1 = Some (([2], [v1]) : jump_table) →
  jumps !! 2 = Some (([0], [v2]) : jump_table) →
  (0 < v0)%Q → (0 < v1)%Q → (0 < v2)%Q →
  writable w (out_name outName 100 0) = true →
  ∃ g', trials draw_index w jumps 3 outName 100 1 g
        = Outcome (Ok tt)
            [Print (MsgSampled 0 300);
             MMWrite (out_name outName 100 0) (cycle3_counts 100)] g'.
Proof.
  intros H0 H1 H2 Hv0 Hv1 Hv2 Hwr.
  destruct (sample_all_cycle jumps v0 v1 v2 99 g H0 H1 H2 Hv0 Hv1 Hv2)
    as (g' & Hpass).
  change (Z.of_nat 100) with 100%Z in Hpass.
  assert (trial_body draw_index w jumps (replicate 3 100%Z) 3 outName 100
                     (new_counts 3 3, 0%Z) 0 g
          = Outcome (Ok (cycle3_counts 100, 300%Z))
              [Print (MsgSampled 0 300);
               MMWrite (out_name outName 100 0) (cycle3_counts 100)] g')
    as Hbody.
  { unfold trial_body.
    rewrite (bind_ok _ _ g (cycle3_counts 100)) by (by rewrite Hpass).
    rewrite Hpass. cbn [res out final].
    unfold index, print, mmwrite. cbn [replicate lookup list_lookup].
    rewrite bind_ret_l, !bind_emit, Hwr. reflexivity. }
  exists g'. unfold trials, range. change (seq 0 (Z.to_nat 1)) with [0].
  rewrite foldM_cons. unfold bind. rewrite Hbody. reflexivity.
Qed.

End CycleRun.

(** C4: the end-to-end scenario.  The matrix file holds a (well-formed)
    three-state matrix that reads as [[0,1,0],[0,0,1],[1,0,0]], the command
    line asks for 100 samples per state and 1 trial, there is no cache file
    and the files can be written; the draw answers within bounds.  Then the
    run ends normally and writes one count matrix, whose stored entries
    are exactly [(0,1) = 100], [(1,2) = 100] and [(2,0) = 100]. *)
Theorem cycle3_hundred_samples draw_index w prog microTFn microstatesFn
    a3 a4 outName rest T mInfo :
  sampler_in_bounds draw_index →
  argv w = prog :: microTFn :: microstatesFn :: a3 :: a4 :: outName :: rest →
  py_int a3 = Some 100%Z → py_int a4 = Some 1%Z →
  path_exists w microTFn = true → mm_file w microTFn = Some T →
  wf_lil T = true → ncols T = 3 →
  same_values (to_dense T) [[0; 1; 0]; [0; 0; 1]; [1; 0; 0]]%Q →
  microstate_file w microstatesFn = Some mInfo →
  path_exists w (microTFn +:+ ".jumps") = false →
  writable w (microTFn +:+ ".jumps") = true →
  writable w (out_name outName 100 0) = true →
  res (run draw_index w) = Ok tt ∧
  written (out (run draw_index w))
  = [(out_name outName 100 0, cycle3_counts 100)].
Proof.
  intros Hdraw Hargv E3 E4 Hex HT Hwf Hcols Hsame HM Hnocache Hwr Hout.
  destruct (cycle_tables T Hwf Hcols Hsame)
    as (Hrows & v0 & v1 & v2 & Hv0 & Hv1 & Hv2 & Hb0 & Hb1 & Hb2).
  destruct (get_jumps_built w T (nrows T) _ (seed w) Hnocache Hwr)
    as (jumps & evs & Hj & Hevs & Hl).
  rewrite Hrows in Hj, Hl.
  destruct (trials_cycle draw_index Hdraw w jumps v0 v1 v2 outName (seed w))
    as (g' & Htrials); try done.
  { by rewrite Hl, <- Hb0. }
  { by rewrite Hl, <- Hb1. }
  { by rewrite Hl, <- Hb2. }
  assert (run draw_index w
          = Outcome (Ok tt)
              ([MMRead microTFn; Print (MsgMatrix T)] ++
               [LoadMicrostates microstatesFn; Print (MsgMInfo mInfo)] ++
               evs ++
               [Print (MsgSampled 0 300);
                MMWrite (out_name outName 100 0) (cycle3_counts 100)])
              g') as Hrun.
  { unfold run. rewrite (main_eq _ _ _ _ _ _ _ _ _ _ Hargv).
    unfold int. rewrite E3, bind_ret_l, E4, bind_ret_l.
    pose proof (read_matrix_spec w microTFn (seed w)) as HT'.
    rewrite Hex, HT in HT'.
    rewrite (bind_ok _ _ _ T) by (by rewrite HT'). rewrite HT'.
    cbn [res out final].
    pose proof (read_microstates_spec w microstatesFn (seed w)) as HM'.
    rewrite HM in HM'.
    rewrite (bind_ok _ _ _ tt) by (by rewrite HM'). rewrite HM'.
    cbn [res out final]. rewrite Hrows.
    rewrite (bind_ok _ _ _ jumps) by (by rewrite Hj). rewrite Hj.
    cbn [res out final]. rewrite Htrials. reflexivity. }
  rewrite Hrun. cbn [res out]. split; [done|].
  rewrite !written_app, Hevs. reflexivity.
Qed.

Lemma cycle3_hundred_samples_witness :
  same_values (to_dense cycle3) [[0; 1; 0]; [0; 0; 1]; [1; 0; 0]]%Q ∧
  res (run WeightedSampler.draw
         (small_world ["T.mtx"; "micro.dat"; "100"; "1"; "out"]
                      cycle3 None true halves)) = Ok tt ∧
  written (out (run WeightedSampler.draw
     (small_world ["T.mtx"; "micro.dat"; "100"; "1"; "out"]
                  cycle3 None true halves)))
  = [(out_name "out" 100 0, cycle3_counts 100)].
Proof.
  assert (same_values (to_dense cycle3) [[0; 1; 0]; [0; 0; 1]; [1; 0; 0]]%Q)
    as Hsame.
  { repeat constructor. }
  split; [exact Hsame|].
  apply (cycle3_hundred_samples WeightedSampler.draw
           (small_world ["T.mtx"; "micro.dat"; "100"; "1"; "out"]
                        cycle3 None true halves)
           "sample.py" "T.mtx" "micro.dat" "100" "1" "out" [] cycle3 "mInfo"
           draw_in_bounds); try reflexivity.
  exact Hsame.
Defined.


(** * Further properties of the script *)

(** ** The trial loop, event by event *)

Lemma sum_replicate n (x : Z) : sum (replicate n x) = (Z.of_nat n * x)%Z.
Proof. induction n as [|n IH]; [done|]. simpl replicate. simpl sum. lia. Qed.

Lemma dumps_app evs1 evs2 : dumps (evs1 ++ evs2) = dumps evs1 ++ dumps evs2.
Proof. apply omap_app. Qed.

Lemma reads_app evs1 evs2 : reads (evs1 ++ evs2) = reads evs1 ++ reads evs2.
Proof. apply omap_app. Qed.

Lemma sampled_lines_app evs1 evs2 :
  sampled_lines (evs1 ++ evs2) = sampled_lines evs1 ++ sampled_lines evs2.
Proof. apply omap_app. Qed.

Section TrialLoop.

Variable draw_index : list Q → rng → result nat * rng.

(** The body of the trial loop, case by case. *)
Lemma trial_body_exact w jumps NumStates outName nsamples C tc t g :
  let sa := sample_all draw_index jumps (replicate NumStates nsamples)
                       NumStates C g in
  let tc' := (tc + sum (replicate NumStates nsamples))%Z in
  let line := Print (MsgSampled (Z.of_nat t * nsamples) tc') in
  trial_body draw_index w jumps (replicate NumStates nsamples) NumStates
             outName nsamples (C, tc) t g
  = match res sa with
    | Halt h => Outcome (Halt h) [] (final sa)
    | Ok C' =>
        if decide (NumStates = 0)
        then Outcome (Halt (Raise IndexError)) [] (final sa)
        else if writable w (out_name outName nsamples t)
             then Outcome (Ok (C', tc'))
                    [line; MMWrite (out_name outName nsamples t) C'] (final sa)
             else Outcome (Halt (Raise IOError)) [line] (final sa)
    end.
Proof.
  intros sa tc' line. unfold trial_body. fold sa.
  pose proof (sample_all_out draw_index jumps (replicate NumStates nsamples)
                NumStates C g) as Hout. fold sa in Hout.
  destruct (res sa) as [C'|h] eqn:E.
  2:{ rewrite (bind_halt _ _ _ _ E). fold sa. by rewrite Hout. }
  rewrite (bind_ok _ _ _ _ E). fold sa. rewrite Hout. cbn [res out final app].
  destruct NumStates as [|n].
  { rewrite decide_True by done. reflexivity. }
  rewrite decide_False by done. unfold index, print, mmwrite.
  cbn [replicate lookup list_lookup]. rewrite bind_ret_l, bind_emit.
  destruct (writable w (out_name outName nsamples t)); reflexivity.
Qed.

(** What the trial loop has written is a chain of completed passes. *)
Lemma trial_loop_passes w jumps NumStates outName nsamples l C tc g :
  let o := foldM (trial_body draw_index w jumps
                    (replicate NumStates nsamples) NumStates outName nsamples)
                 l (C, tc) g in
  ∃ Cs, written (out o) = zip (out_name outName nsamples <$> l) Cs ∧
        length Cs ≤ length l ∧
        chained (pass_of draw_index jumps (replicate NumStates nsamples)
                         NumStates) C Cs ∧
        (0 < length Cs → NumStates ≠ 0).
Proof.
  revert C tc g. induction l as [|t l IH]; intros C tc g o.
  - exists []. subst o. simpl. repeat split; [lia|lia].
  - subst o. rewrite foldM_cons.
    pose proof (trial_body_exact w jumps NumStates outName nsamples C tc t g)
      as Hbody. cbv zeta in Hbody.
    set (sa := sample_all _ _ _ _ _ _) in Hbody.
    destruct (res sa) as [C'|h] eqn:E.
    2:{ exists []. rewrite (bind_halt _ _ _ h) by (by rewrite Hbody).
        rewrite Hbody. simpl. repeat split; lia. }
    destruct (decide (NumStates = 0)) as [HN|HN].
    { exists []. rewrite (bind_halt _ _ _ (Raise IndexError))
        by (by rewrite Hbody).
      rewrite Hbody. simpl. repeat split; lia. }
    destruct (writable w (out_name outName nsamples t)).
    2:{ exists []. rewrite (bind_halt _ _ _ (Raise IOError))
          by (by rewrite Hbody).
        rewrite Hbody. simpl. repeat split; lia. }
    rewrite (bind_ok _ _ _ (C', (tc + sum (replicate NumStates nsamples))%Z))
      by (by rewrite Hbody).
    rewrite Hbody. cbn [res out final].
    destruct (IH C' (tc + sum (replicate NumStates nsamples))%Z (final sa))
      as (Cs & HCs & Hlen & Hch & _).
    exists (C' :: Cs). rewrite written_app, HCs. simpl.
    split; [done|]. split; [lia|]. split; [|done].
    split; [|done]. by exists g.
Qed.

Lemma chained_Forall {A} (R : A → A → Prop) (I : A → Prop) a l :
  (∀ x y, I x → R x y → I y) → I a → chained R a l → Forall I l.
Proof.
  intros Hstep. revert a. induction l as [|b l IH]; intros a Ha Hch; [done|].
  destruct Hch as [Hab Hch]. constructor; [by eapply Hstep|].
  eapply IH; [|exact Hch]. by eapply Hstep.
Qed.

(** The same for [trials]. *)
Lemma trials_passes w jumps NumStates outName nsamples NumTrials g :
  ∃ Cs, written (out (trials draw_index w jumps NumStates outName nsamples
                             NumTrials g))
        = zip (out_name outName nsamples <$> range NumTrials) Cs ∧
        length Cs ≤ Z.to_nat NumTrials ∧
        chained (pass_of draw_index jumps (replicate NumStates nsamples)
                         NumStates) (new_counts NumStates NumStates) Cs ∧
        (0 < length Cs → NumStates ≠ 0).
Proof.
  unfold trials. set (loop := foldM _ _ _).
  destruct (trial_loop_passes w jumps NumStates outName nsamples
              (range NumTrials) (new_counts NumStates NumStates) 0%Z g)
    as (Cs & HCs & Hlen & Hch & HN).
  fold loop in HCs. unfold range in Hlen. rewrite length_seq in Hlen.
  exists Cs. unfold bind.
  destruct (res (loop g)); cbn [out]; rewrite ?app_nil_r; done.
Qed.

End TrialLoop.

(** ** Lines 30-93, event by event *)

(** The progress lines of the builder: one for every hundredth state. *)
Lemma build_step_exact T m i g :
  build_step T m i g
  = Outcome (Ok (<[i := build T i]> m))
            (if (i mod 100 =? 0)%nat then [Print (MsgJump i (build T i))]
             else []) g.
Proof.
  unfold build_step. cbv zeta. destruct (i mod 100 =? 0)%nat; [|done].
  unfold dict_get. by rewrite lookup_insert_eq.
Qed.

Lemma build_loop_progress T m a n g :
  out (foldM (build_step T) (seq a n) m g)
  = Print <$> ((λ i, MsgJump i (build T i))
               <$> filter (λ i, i mod 100 = 0) (seq a n)).
Proof.
  revert m a. induction n as [|n IH]; intros m a; [done|].
  simpl seq. rewrite foldM_cons.
  rewrite (bind_ok _ _ g (<[a := build T a]> m))
    by (by rewrite build_step_exact).
  rewrite build_step_exact. cbn [res out final]. rewrite IH.
  rewrite filter_cons. destruct (a mod 100 =? 0)%nat eqn:E.
  - apply Nat.eqb_eq in E. by rewrite decide_True by done.
  - apply Nat.eqb_neq in E. by rewrite decide_False by done.
Qed.

Lemma reads_prints msgs : reads (Print <$> msgs) = [].
Proof. by induction msgs. Qed.

Lemma dumps_prints msgs : dumps (Print <$> msgs) = [].
Proof. by induction msgs. Qed.

Lemma sampled_lines_jump_prints T (l : list nat) :
  sampled_lines (Print <$> ((λ i, MsgJump i (build T i)) <$> l)) = [].
Proof. by induction l. Qed.

(** Lines 67-93 when they succeed: what they hand over and what they
    leave in the trace. *)
Lemma get_jumps_exact w T NumStates jumpFn g :
  (if path_exists w jumpFn then is_Some (jumps_file w jumpFn)
   else writable w jumpFn = true) →
  ∃ jumps evs,
    get_jumps w T NumStates jumpFn g = Outcome (Ok jumps) evs g ∧
    if path_exists w jumpFn
    then jumps_file w jumpFn = Some jumps ∧
         evs = [Print (MsgReadingJumps jumpFn); PickleLoad jumpFn;
                Print MsgReadDone]
    else (∀ i, jumps !! i =
               if decide (i < NumStates) then Some (build T i) else None) ∧
         evs = Print MsgMakingJumps
               :: (Print <$> ((λ i, MsgJump i (build T i))
                              <$> filter (λ i, i mod 100 = 0)
                                         (seq 0 NumStates)))
               ++ [Print (MsgPickling jumpFn); PickleDump jumpFn jumps;
                   Print MsgDone].
Proof.
  unfold get_jumps. destruct (path_exists w jumpFn).
  - intros [jumps Hj]. exists jumps. eexists. unfold load_jumps.
    rewrite Hj. split; [reflexivity|done].
  - intros Hwr.
    destruct (build_all_spec T NumStates g) as (jumps & msgs & Heq & Hl).
    pose proof (build_loop_progress T ∅ 0 NumStates g) as Hprog.
    fold (build_all T NumStates) in Hprog. rewrite Heq in Hprog.
    cbn [out] in Hprog.
    exists jumps. eexists. unfold print. rewrite bind_emit.
    rewrite (bind_ok _ _ g jumps) by (by rewrite Heq). rewrite Heq.
    cbn [res out final]. unfold save_jumps, print. rewrite Hwr, Hprog.
    split; [reflexivity|done].
Qed.

Section Prelude.

Variable draw_index : list Q → rng → result nat * rng.

(** A run whose surroundings let it reach the trial loop, in full. *)
Lemma run_of_sampling_reached w microTFn microstatesFn outName T
    nsamples ntrials :
  sampling_reached w microTFn microstatesFn outName T nsamples ntrials →
  ∃ jumps mInfo evs,
    microstate_file w microstatesFn = Some mInfo ∧
    get_jumps w T (nrows T) (microTFn +:+ ".jumps") (seed w)
    = Outcome (Ok jumps) evs (seed w) ∧
    run draw_index w
    = Outcome
        (res (trials draw_index w jumps (nrows T) outName nsamples ntrials
                     (seed w)))
        ([MMRead microTFn; Print (MsgMatrix T);
          LoadMicrostates microstatesFn; Print (MsgMInfo mInfo)]
         ++ evs
         ++ out (trials draw_index w jumps (nrows T) outName nsamples
                        ntrials (seed w)))
        (final (trials draw_index w jumps (nrows T) outName nsamples ntrials
                       (seed w))).
Proof.
  intros [(prog & a3 & a4 & rest & Hargv & E3 & E4)
            (Hex & HT & [mInfo HM] & Hcache)].
  destruct (get_jumps_exact w T (nrows T) _ (seed w) Hcache)
    as (jumps & evs & Hj & _).
  exists jumps, mInfo, evs. split; [done|]. split; [done|].
  unfold run. rewrite (main_eq _ _ _ _ _ _ _ _ _ _ Hargv).
  unfold int. rewrite E3, bind_ret_l, E4, bind_ret_l.
  pose proof (read_matrix_spec w microTFn (seed w)) as HT'.
  rewrite Hex, HT in HT'.
  rewrite (bind_ok _ _ _ T) by (by rewrite HT'). rewrite HT'.
  cbn [res out final].
  pose proof (read_microstates_spec w microstatesFn (seed w)) as HM'.
  rewrite HM in HM'.
  rewrite (bind_ok _ _ _ tt) by (by rewrite HM'). rewrite HM'.
  cbn [res out final].
  rewrite (bind_ok _ _ _ jumps) by (by rewrite Hj). rewrite Hj.
  cbn [res out final]. reflexivity.
Qed.

(** The trial loop prints progress lines and writes count matrices,
    nothing else. *)
Lemma trial_loop_events w jumps NumStates outName nsamples l vars g :
  Forall (λ e, match e with
               | Print (MsgSampled _ _) | MMWrite _ _ => True
               | _ => False
               end)
         (out (foldM (trial_body draw_index w jumps
                        (replicate NumStates nsamples) NumStates outName
                        nsamples) l vars g)).
Proof.
  revert vars g. induction l as [|t l IH]; intros [C tc] g; [constructor|].
  rewrite foldM_cons.
  pose proof (trial_body_exact draw_index w jumps NumStates outName nsamples
                C tc t g) as Hbody. cbv zeta in Hbody.
  set (sa := sample_all _ _ _ _ _ _) in Hbody.
  unfold bind. rewrite Hbody.
  destruct (res sa) as [C'|h]; [|constructor].
  destruct (decide (NumStates = 0)); [constructor|].
  destruct (writable w (out_name outName nsamples t)); cbn [res out final].
  - repeat constructor. apply IH.
  - by repeat constructor.
Qed.

Lemma trials_events w jumps NumStates outName nsamples NumTrials g :
  Forall (λ e, match e with
               | Print (MsgSampled _ _) | MMWrite _ _ => True
               | _ => False
               end)
         (out (trials draw_index w jumps NumStates outName nsamples
                      NumTrials g)).
Proof.
  unfold trials. set (loop := foldM _ _ _).
  pose proof (trial_loop_events w jumps NumStates outName nsamples
                (range NumTrials) (new_counts NumStates NumStates, 0%Z) g)
    as Hev. fold loop in Hev.
  unfold bind. destruct (res (loop g)); cbn [out]; rewrite ?app_nil_r; done.
Qed.

Lemma trials_reads w jumps NumStates outName nsamples NumTrials g :
  reads (out (trials draw_index w jumps NumStates outName nsamples
                     NumTrials g)) = [].
Proof.
  pose proof (trials_events w jumps NumStates outName nsamples NumTrials g)
    as Hev.
  induction Hev as [|e evs He _ IH]; [done|].
  destruct e as [[]| | | | |]; try done; exact IH.
Qed.

Lemma trials_dumps w jumps NumStates outName nsamples NumTrials g :
  dumps (out (trials draw_index w jumps NumStates outName nsamples
                     NumTrials g)) = [].
Proof.
  pose proof (trials_events w jumps NumStates outName nsamples NumTrials g)
    as Hev.
  induction Hev as [|e evs He _ IH]; [done|].
  destruct e as [[]| | | | |]; try done; exact IH.
Qed.

End Prelude.

(** ** Leaving before the trials *)

Section EarlyExits.

Variable draw_index : list Q → rng → result nat * rng.

(** X1: when the matrix file is not there (and the two numbers on the
    command line are integers), the script prints that it cannot find the
    file and exits with code 1: this line is the only event, no file has
    been read and nothing has been drawn. *)
Theorem missing_matrix_exits w prog microTFn microstatesFn a3 a4 outName
    rest nsamples ntrials :
  argv w = prog :: microTFn :: microstatesFn :: a3 :: a4 :: outName :: rest →
  py_int a3 = Some nsamples → py_int a4 = Some ntrials →
  path_exists w microTFn = false →
  run draw_index w
  = Outcome (Halt (Exit 1)) [Print (MsgCantFind microTFn)] (seed w).
Proof.
  intros Hargv E3 E4 Hex. unfold run.
  rewrite (main_eq _ _ _ _ _ _ _ _ _ _ Hargv).
  unfold int. rewrite E3, bind_ret_l, E4, bind_ret_l.
  pose proof (read_matrix_spec w microTFn (seed w)) as HT.
  rewrite Hex in HT.
  rewrite (bind_halt _ _ _ (Exit 1)) by (by rewrite HT). by rewrite HT.
Qed.

(** X2: [int(sys.argv[3])] and [int(sys.argv[4])] come before the look for
    the matrix file: when one of the two arguments is not an integer the
    run ends with [ValueError] and without a single event, whether the
    files are there or not. *)
Theorem bad_number_raises_first w prog microTFn microstatesFn a3 a4 outName
    rest :
  argv w = prog :: microTFn :: microstatesFn :: a3 :: a4 :: outName :: rest →
  py_int a3 = None ∨ py_int a4 = None →
  run draw_index w = Outcome (Halt (Raise ValueError)) [] (seed w).
Proof.
  intros Hargv Hbad. unfold run.
  rewrite (main_eq _ _ _ _ _ _ _ _ _ _ Hargv). unfold int.
  destruct (py_int a3) as [ns|] eqn:E3; [|done].
  rewrite bind_ret_l. destruct Hbad as [|E4]; [done|]. by rewrite E4.
Qed.

(** X3: on a matrix without rows, a run that reaches the trial loop with
    at least one trial to do stops at line 115: [NumSamplesPerState] is
    empty, [NumSamplesPerState[0]] raises [IndexError], and no count
    matrix is written. *)
Theorem no_states_raise_index_error w microTFn microstatesFn outName T
    nsamples ntrials :
  sampling_reached w microTFn microstatesFn outName T nsamples ntrials →
  nrows T = 0 → (0 < ntrials)%Z →
  res (run draw_index w) = Halt (Raise IndexError) ∧
  written (out (run draw_index w)) = [] ∧
  final (run draw_index w) = seed w.
Proof.
  intros Hreach HN Hnt.
  destruct (run_of_sampling_reached draw_index _ _ _ _ _ _ _ Hreach)
    as (jumps & mInfo & evs & _ & Hj & Hrun).
  pose proof (get_jumps_spec w T (microTFn +:+ ".jumps") (seed w))
    as (_ & Hw & _). rewrite Hj in Hw. cbn [out] in Hw.
  assert (trials draw_index w jumps (nrows T) outName nsamples ntrials (seed w)
          = Outcome (Halt (Raise IndexError)) [] (seed w)) as Htrials.
  { rewrite HN. unfold trials, range.
    destruct (Z.to_nat ntrials) as [|n] eqn:E; [lia|].
    simpl seq. rewrite foldM_cons.
    pose proof (trial_body_exact draw_index w jumps 0 outName nsamples
                  (new_counts 0 0) 0%Z 0 (seed w)) as Hbody.
    cbv zeta in Hbody. change (replicate 0 nsamples) with (@nil Z) in *.
    unfold bind at 1 2. rewrite Hbody. reflexivity. }
  rewrite Hrun, Htrials. cbn [res out final].
  split; [done|]. split; [|done].
  rewrite !written_app, Hw. reflexivity.
Qed.

(** X4: with a number of trials that is zero or negative, a run that
    reaches the trial loop ends normally without a single draw and without
    writing a count matrix. *)
Theorem no_trials_no_output w microTFn microstatesFn outName T
    nsamples ntrials :
  sampling_reached w microTFn microstatesFn outName T nsamples ntrials →
  (ntrials ≤ 0)%Z →
  res (run draw_index w) = Ok tt ∧
  written (out (run draw_index w)) = [] ∧
  final (run draw_index w) = seed w.
Proof.
  intros Hreach Hnt.
  destruct (run_of_sampling_reached draw_index _ _ _ _ _ _ _ Hreach)
    as (jumps & mInfo & evs & _ & Hj & Hrun).
  pose proof (get_jumps_spec w T (microTFn +:+ ".jumps") (seed w))
    as (_ & Hw & _). rewrite Hj in Hw. cbn [out] in Hw.
  assert (trials draw_index w jumps (nrows T) outName nsamples ntrials (seed w)
          = Outcome (Ok tt) [] (seed w)) as Htrials.
  { unfold trials, range. replace (Z.to_nat ntrials) with 0 by lia.
    reflexivity. }
  rewrite Hrun, Htrials. cbn [res out final].
  split; [done|]. split; [|done].
  rewrite !written_app, Hw. reflexivity.
Qed.

End EarlyExits.

Lemma missing_matrix_exits_witness :
  path_exists (small_world ["other.mtx"; "micro.dat"; "3"; "2"; "out"]
                           cycle3 None true halves) "other.mtx" = false ∧
  run WeightedSampler.draw
      (small_world ["other.mtx"; "micro.dat"; "3"; "2"; "out"]
                   cycle3 None true halves)
  = Outcome (Halt (Exit 1)) [Print (MsgCantFind "other.mtx")]
            {| tape := halves; pos := 0 |}.
Proof.
  split; [reflexivity|].
  apply (missing_matrix_exits WeightedSampler.draw
           (small_world ["other.mtx"; "micro.dat"; "3"; "2"; "out"]
                        cycle3 None true halves)
           "sample.py" "other.mtx" "micro.dat" "3" "2" "out" [] 3%Z 2%Z);
    reflexivity.
Defined.

Lemma bad_number_raises_first_witness :
  py_int "many" = None ∧
  run WeightedSampler.draw
      (small_world ["other.mtx"; "micro.dat"; "many"; "2"; "out"]
                   cycle3 None true halves)
  = Outcome (Halt (Raise ValueError)) [] {| tape := halves; pos := 0 |}.
Proof.
  split; [reflexivity|].
  apply (bad_number_raises_first WeightedSampler.draw
           (small_world ["other.mtx"; "micro.dat"; "many"; "2"; "out"]
                        cycle3 None true halves)
           "sample.py" "other.mtx" "micro.dat" "many" "2" "out" []);
    [reflexivity|left; reflexivity].
Defined.

Lemma small_world_reaches a3 a4 nsamples ntrials T cache tp :
  py_int a3 = Some nsamples → py_int a4 = Some ntrials →
  sampling_reached (small_world ["T.mtx"; "micro.dat"; a3; a4; "out"]
                                T cache true tp)
                   "T.mtx" "micro.dat" "out" T nsamples ntrials.
Proof.
  intros E3 E4. split.
  { exists "sample.py", a3, a4, []. done. }
  split; [reflexivity|]. split; [reflexivity|]. split; [by eexists|].
  destruct cache as [jumps|]; simpl; [by eexists|done].
Qed.

Lemma no_states_raise_index_error_witness :
  nrows {| ncols := 0; lil_rows := [] |} = 0 ∧
  res (run WeightedSampler.draw
         (small_world ["T.mtx"; "micro.dat"; "5"; "2"; "out"]
                      {| ncols := 0; lil_rows := [] |} None true halves))
  = Halt (Raise IndexError).
Proof.
  split; [reflexivity|].
  apply (no_states_raise_index_error WeightedSampler.draw
           (small_world ["T.mtx"; "micro.dat"; "5"; "2"; "out"]
                        {| ncols := 0; lil_rows := [] |} None true halves)
           "T.mtx" "micro.dat" "out" {| ncols := 0; lil_rows := [] |} 5%Z 2%Z).
  - apply small_world_reaches; reflexivity.
  - reflexivity.
  - lia.
Defined.

Lemma no_trials_no_output_witness :
  (0 ≤ 0)%Z ∧
  res (run WeightedSampler.draw
         (small_world ["T.mtx"; "micro.dat"; "5"; "0"; "out"]
                      cycle3 None true halves)) = Ok tt ∧
  written (out (run WeightedSampler.draw
         (small_world ["T.mtx"; "micro.dat"; "5"; "0"; "out"]
                      cycle3 None true halves))) = [] ∧
  final (run WeightedSampler.draw
         (small_world ["T.mtx"; "micro.dat"; "5"; "0"; "out"]
                      cycle3 None true halves))
  = {| tape := halves; pos := 0 |}.
Proof.
  split; [lia|].
  apply (no_trials_no_output WeightedSampler.draw
           (small_world ["T.mtx"; "micro.dat"; "5"; "0"; "out"]
                        cycle3 None true halves)
           "T.mtx" "micro.dat" "out" cycle3 5%Z 0%Z).
  - apply small_world_reaches; reflexivity.
  - lia.
Defined.

(** ** Invariants of the written matrices *)

Lemma foldM_final {A B} (body : B → A → M B) l :
  (∀ acc x g, final (body acc x g) = g) →
  ∀ acc g, final (foldM body l acc g) = g.
Proof.
  intros Hbody. induction l as [|x l IH]; intros acc g; [done|].
  rewrite foldM_cons. unfold bind.
  destruct (res (body acc x g)); cbn [final]; rewrite ?IH; apply Hbody.
Qed.

Lemma count_at_nonneg C i j : in_shape C → (0 ≤ count_at C i j)%Z.
Proof.
  intros HC. unfold count_at.
  destruct (counts C !! (i, j)) as [v|] eqn:E; simpl; [|lia].
  destruct (HC _ _ _ E) as (_ & _ & Hv). lia.
Qed.

Lemma in_shape_new n m : in_shape (new_counts n m).
Proof. intros i j v. unfold new_counts. simpl. by rewrite lookup_empty. Qed.

Section Invariants.

Variable draw_index : list Q → rng → result nat * rng.

Lemma increment_in_shape C i j g C' :
  in_shape C → res (increment C i j g) = Ok C' → in_shape C'.
Proof.
  intros HC Hinc. pose proof (count_at_nonneg C i j HC) as Hnn.
  unfold increment in Hinc. case_decide as Hin; [|done].
  injection Hinc as <-. intros a b v. cbn [counts cshape].
  rewrite lookup_insert. case_decide as Heq.
  - injection Heq as <- <-. intros [= <-]. split; [tauto|]. split; [tauto|lia].
  - apply HC.
Qed.

Lemma sample_all_in_shape jumps NumSamplesPerState NumStates C g C' :
  in_shape C →
  res (sample_all draw_index jumps NumSamplesPerState NumStates C g) = Ok C' →
  in_shape C'.
Proof.
  unfold sample_all. apply (foldM_invariant in_shape).
  intros acc i g0 acc' _ Hacc. unfold sample_from.
  intros (jt & _ & (n & _ & Hs)%bind_res_ok_inv)%bind_res_ok_inv.
  revert Hs. unfold sample_state. apply (foldM_invariant in_shape); [|done].
  intros acc1 x g1 acc2 _ Hacc1 (j & g' & _ & Hinc)%draw_step_ok.
  by eapply increment_in_shape.
Qed.

(** X5: every count matrix a run writes has the shape [(N, N)], [N] the
    number of rows of the matrix read, and stores only entries inside this
    shape, each with a positive count: no zero is ever stored and no
    count is ever negative. *)
Theorem written_matrices_in_shape w microTFn T fn C :
  argv w !! 1 = Some microTFn → mm_file w microTFn = Some T →
  (fn, C) ∈ written (out (run draw_index w)) →
  cshape C = (nrows T, nrows T) ∧ in_shape C.
Proof.
  intros H1 HT Hin.
  destruct (run_cases draw_index w)
    as [(h & _ & Hw & _)|(microTFn' & a3 & a4 & outName & T' & ns & nt & jumps
                      & pre & H1' & _ & _ & _ & _ & _ & _ & HT' & _
                      & Hpre & Hrun)].
  { rewrite Hw in Hin. by apply not_elem_of_nil in Hin. }
  assert (microTFn' = microTFn) as -> by congruence.
  assert (T' = T) as -> by congruence.
  destruct (trials_passes draw_index w jumps (nrows T) outName ns nt (seed w))
    as (Cs & HCs & _ & Hch & _).
  rewrite Hrun in Hin. cbv zeta in Hin. cbn [res out final] in Hin.
  rewrite written_app, Hpre, HCs in Hin. cbn [app] in Hin.
  apply list_elem_of_lookup in Hin as [t Ht].
  apply lookup_zip_with_Some in Ht as (fn0 & C0 & [= -> ->] & _ & HC).
  apply (chained_Forall _
           (λ C, cshape C = (nrows T, nrows T) ∧ in_shape C)) in Hch.
  - rewrite Forall_forall in Hch. apply Hch.
    by eapply list_elem_of_lookup_2.
  - intros C1 C2 [Hs Hi] [g Hpass]. split.
    + apply sample_all_grows in Hpass as [Hshape _]. congruence.
    + by eapply sample_all_in_shape.
  - split; [done|apply in_shape_new].
Qed.

End Invariants.

Lemma written_matrices_in_shape_witness :
  argv (small_world ["T.mtx"; "micro.dat"; "2"; "1"; "out"]
                    cycle3 None true halves) !! 1 = Some "T.mtx" ∧
  cshape (cycle3_counts 2) = (nrows cycle3, nrows cycle3) ∧
  in_shape (cycle3_counts 2).
Proof.
  split; [reflexivity|].
  apply (written_matrices_in_shape WeightedSampler.draw
           (small_world ["T.mtx"; "micro.dat"; "2"; "1"; "out"]
                        cycle3 None true halves)
           "T.mtx" cycle3 "tCounts.uniform.out.2.0.mtx" (cycle3_counts 2)).
  - reflexivity.
  - reflexivity.
  - vm_compute. left.
Defined.

(** ** Requests for no samples *)

Section NoSamples.

Variable draw_index : list Q → rng → result nat * rng.

Lemma sample_from_nonpositive jumps NumStates nsamples C i g :
  (nsamples ≤ 0)%Z →
  final (sample_from draw_index jumps (replicate NumStates nsamples) C i g) = g ∧
  ∀ C', res (sample_from draw_index jumps (replicate NumStates nsamples) C i g)
        = Ok C' → C' = C.
Proof.
  intros Hns. unfold sample_from, dict_get, index.
  destruct (jumps !! i) as [jt|]; [rewrite bind_ret_l|done].
  destruct (replicate NumStates nsamples !! i) as [n|] eqn:En; [|done].
  apply lookup_replicate in En as [-> _]. rewrite bind_ret_l.
  unfold sample_state, range. replace (Z.to_nat nsamples) with 0 by lia.
  split; [done|]. simpl. by intros C' [= <-].
Qed.

Lemma sample_all_nonpositive jumps NumStates nsamples C g :
  (nsamples ≤ 0)%Z →
  final (sample_all draw_index jumps (replicate NumStates nsamples)
                    NumStates C g) = g ∧
  ∀ C', res (sample_all draw_index jumps (replicate NumStates nsamples)
                        NumStates C g) = Ok C' → C' = C.
Proof.
  intros Hns. unfold sample_all. split.
  - apply foldM_final. intros acc i g0.
    by apply sample_from_nonpositive.
  - intros C'. apply (foldM_invariant (λ C', C' = C)); [|done].
    intros acc i g0 acc' _ -> Hok.
    by eapply sample_from_nonpositive.
Qed.

Lemma trial_loop_final w jumps NumStates outName nsamples l vars g :
  (∀ C g, final (sample_all draw_index jumps (replicate NumStates nsamples)
                            NumStates C g) = g) →
  final (foldM (trial_body draw_index w jumps (replicate NumStates nsamples)
                           NumStates outName nsamples) l vars g) = g.
Proof.
  intros Hpass. apply foldM_final. intros [C tc] t g0.
  pose proof (trial_body_exact draw_index w jumps NumStates outName nsamples
                C tc t g0) as Hbody. cbv zeta in Hbody.
  rewrite Hbody.
  destruct (res (sample_all _ _ _ _ _ _)); [|apply Hpass].
  destruct (decide (NumStates = 0)); [apply Hpass|].
  destruct (writable w _); apply Hpass.
Qed.

(** X6: when the number of samples per state is zero or negative, no
    value is ever drawn from the random source, and every count matrix the
    run writes is the empty matrix the accumulator started as. *)
Theorem nonpositive_samples_write_empty w microTFn T a3 nsamples :
  argv w !! 1 = Some microTFn → mm_file w microTFn = Some T →
  argv w !! 3 = Some a3 → py_int a3 = Some nsamples →
  (nsamples ≤ 0)%Z →
  final (run draw_index w) = seed w ∧
  ∀ fn C, (fn, C) ∈ written (out (run draw_index w)) →
          C = new_counts (nrows T) (nrows T).
Proof.
  intros H1 HT H3 E3 Hns.
  destruct (run_cases draw_index w)
    as [(h & _ & Hw & Hfin)|(microTFn' & a3' & a4 & outName & T' & ns & nt
                      & jumps & pre & H1' & H3' & _ & _ & E3' & _ & _ & HT'
                      & _ & Hpre & Hrun)].
  { split; [done|]. intros fn C Hin. rewrite Hw in Hin.
    by apply not_elem_of_nil in Hin. }
  assert (microTFn' = microTFn) as -> by congruence.
  assert (T' = T) as -> by congruence.
  assert (a3' = a3) as -> by congruence.
  assert (ns = nsamples) as -> by congruence.
  rewrite Hrun. cbv zeta. cbn [res out final]. split.
  - unfold trials. set (loop := foldM _ _ _).
    assert (final (loop (seed w)) = seed w) as Hloop.
    { apply trial_loop_final. intros C g.
      by apply sample_all_nonpositive. }
    unfold bind. destruct (res (loop (seed w))); cbn [final]; done.
  - intros fn C Hin.
    destruct (trials_passes draw_index w jumps (nrows T) outName nsamples nt
                (seed w)) as (Cs & HCs & _ & Hch & _).
    rewrite written_app, Hpre, HCs in Hin. cbn [app] in Hin.
    apply list_elem_of_lookup in Hin as [t Ht].
    apply lookup_zip_with_Some in Ht as (fn0 & C0 & [= -> ->] & _ & HC).
    apply (chained_Forall _ (λ C, C = new_counts (nrows T) (nrows T))) in Hch.
    + rewrite Forall_forall in Hch. apply Hch.
      by eapply list_elem_of_lookup_2.
    + intros C1 C2 -> [g Hpass].
      by eapply sample_all_nonpositive.
    + done.
Qed.

End NoSamples.

Lemma nonpositive_samples_write_empty_witness :
  (-3 ≤ 0)%Z ∧
  final (run WeightedSampler.draw
           (small_world ["T.mtx"; "micro.dat"; "-3"; "2"; "out"]
                        cycle3 None true halves))
  = {| tape := halves; pos := 0 |} ∧
  ∀ fn C,
    (fn, C) ∈ written (out (run WeightedSampler.draw
       (small_world ["T.mtx"; "micro.dat"; "-3"; "2"; "out"]
                    cycle3 None true halves))) →
    C = new_counts (nrows cycle3) (nrows cycle3).
Proof.
  split; [lia|].
  apply (nonpositive_samples_write_empty WeightedSampler.draw
           (small_world ["T.mtx"; "micro.dat"; "-3"; "2"; "out"]
                        cycle3 None true halves)
           "T.mtx" cycle3 "-3" (-3)%Z); [reflexivity..|lia].
Defined.

Example negative_samples_files :
  written (out (run WeightedSampler.draw
     (small_world ["T.mtx"; "micro.dat"; "-3"; "2"; "out"]
                  cycle3 None true halves)))
  = [("tCounts.uniform.out.-3.0.mtx", new_counts 3 3);
     ("tCounts.uniform.out.-3.1.mtx", new_counts 3 3)].
Proof. vm_compute. reflexivity. Qed.

(** ** A cache that misses a state *)

Lemma foldM_ok_each {A B} (body : B → A → M B) l acc g acc' x :
  res (foldM body l acc g) = Ok acc' → x ∈ l →
  ∃ acc0 g0 acc1, res (body acc0 x g0) = Ok acc1.
Proof.
  revert acc g. induction l as [|y l IH]; intros acc g Hok Hx.
  - by apply not_elem_of_nil in Hx.
  - rewrite foldM_cons in Hok.
    apply bind_res_ok_inv in Hok as (a & Ha & Hrest).
    apply elem_of_cons in Hx as [->|Hx]; [by eexists _, _, _|].
    by eapply IH.
Qed.

Section IncompleteCache.

Variable draw_index : list Q → rng → result nat * rng.

(** A pass that completes has found a table for every state. *)
Lemma sample_all_ok_keys jumps NumSamplesPerState NumStates C g C' i :
  res (sample_all draw_index jumps NumSamplesPerState NumStates C g) = Ok C' →
  i < NumStates → is_Some (jumps !! i).
Proof.
  unfold sample_all. intros Hok Hi.
  destruct (foldM_ok_each _ _ _ _ _ i Hok) as (C0 & g0 & C1 & Hbody).
  { apply elem_of_seq. lia. }
  unfold sample_from in Hbody.
  apply bind_res_ok_inv in Hbody as (jt & Hjt & _).
  apply dict_get_ok in Hjt as [Hjt _]. by eexists.
Qed.

(** X7: a cache file that holds no table for some state of the matrix
    (one written for a smaller matrix, say) makes the first pass over the
    states fail: the run does not end normally and writes no count
    matrix at all. *)
Theorem incomplete_cache_writes_nothing w microTFn microstatesFn outName T
    nsamples ntrials jumps i :
  sampling_reached w microTFn microstatesFn outName T nsamples ntrials →
  path_exists w (microTFn +:+ ".jumps") = true →
  jumps_file w (microTFn +:+ ".jumps") = Some jumps →
  i < nrows T → jumps !! i = None → (0 < ntrials)%Z →
  (∃ h, res (run draw_index w) = Halt h) ∧
  written (out (run draw_index w)) = [].
Proof.
  intros Hreach Hex Hfile Hi Hnone Hnt.
  destruct (run_of_sampling_reached draw_index _ _ _ _ _ _ _ Hreach)
    as (jumps' & mInfo & evs & _ & Hj & Hrun).
  pose proof (get_jumps_spec w T (microTFn +:+ ".jumps") (seed w))
    as (_ & Hw & Hfrom). rewrite Hj in Hw, Hfrom. cbn [res out] in Hw, Hfrom.
  unfold jumps_from in Hfrom. rewrite Hex, Hfile in Hfrom.
  injection Hfrom as <-.
  assert (∃ h g', trials draw_index w jumps (nrows T) outName nsamples ntrials
                         (seed w) = Outcome (Halt h) [] g')
    as (h & g' & Htrials).
  { unfold trials, range.
    destruct (Z.to_nat ntrials) as [|n] eqn:E; [lia|].
    simpl seq. rewrite foldM_cons.
    pose proof (trial_body_exact draw_index w jumps (nrows T) outName nsamples
                  (new_counts (nrows T) (nrows T)) 0%Z 0 (seed w)) as Hbody.
    cbv zeta in Hbody.
    destruct (res (sample_all draw_index jumps (replicate (nrows T) nsamples)
                     (nrows T) (new_counts (nrows T) (nrows T)) (seed w)))
      as [C'|h] eqn:Hsa.
    { destruct (sample_all_ok_keys _ _ _ _ _ _ i Hsa Hi) as [jt Hjt].
      congruence. }
    exists h. eexists. unfold bind at 1 2. rewrite Hbody. reflexivity. }
  rewrite Hrun, Htrials. cbn [res out final]. split; [by exists h|].
  rewrite !written_app, Hw. reflexivity.
Qed.

End IncompleteCache.

Lemma incomplete_cache_writes_nothing_witness :
  ({[0 := (([1], [1%Q]) : jump_table)]} : gmap nat jump_table) !! 1 = None ∧
  written (out (run WeightedSampler.draw
     (small_world ["T.mtx"; "micro.dat"; "1"; "1"; "out"] identity2
        (Some {[0 := (([1], [1%Q]) : jump_table)]}) true halves))) = [].
Proof.
  split; [reflexivity|].
  apply (incomplete_cache_writes_nothing WeightedSampler.draw
           (small_world ["T.mtx"; "micro.dat"; "1"; "1"; "out"] identity2
              (Some {[0 := (([1], [1%Q]) : jump_table)]}) true halves)
           "T.mtx" "micro.dat" "out" identity2 1%Z 1%Z
           {[0 := (([1], [1%Q]) : jump_table)]} 1).
  - apply small_world_reaches; reflexivity.
  - reflexivity.
  - reflexivity.
  - unfold nrows, identity2. simpl. lia.
  - reflexivity.
  - lia.
Defined.

(** ** The files of a run that stops on the way *)

Section WrittenNames.

Variable draw_index : list Q → rng → result nat * rng.

(** X8: however a run ends, the count matrices it has written are those
    of the trials [0, 1, ..., k-1] for some [k] that does not exceed the
    number of trials asked for, in this order and under their names: a run
    that stops on the way leaves the files of an initial run of trials and
    no others. *)
Theorem written_names_are_first_trials w a3 nsamples outName :
  argv w !! 3 = Some a3 → py_int a3 = Some nsamples →
  argv w !! 5 = Some outName →
  ∃ k, (written (out (run draw_index w))).*1
       = out_name outName nsamples <$> seq 0 k ∧
       ∀ a4 ntrials, argv w !! 4 = Some a4 → py_int a4 = Some ntrials →
                     k ≤ Z.to_nat ntrials.
Proof.
  intros H3 E3 H5.
  destruct (run_cases draw_index w)
    as [(h & _ & Hw & _)|(microTFn & a3' & a4 & outName' & T & ns & nt & jumps
                      & pre & _ & H3' & H4 & H5' & E3' & E4 & _ & _ & _
                      & Hpre & Hrun)].
  { exists 0. rewrite Hw. split; [done|]. intros. lia. }
  assert (a3' = a3) as -> by congruence.
  assert (ns = nsamples) as -> by congruence.
  assert (outName' = outName) as -> by congruence.
  destruct (trials_written draw_index w jumps (nrows T) outName nsamples nt
              (seed w)) as (Cs & HCs & Hlen & _ & _).
  exists (length Cs). split.
  - rewrite Hrun. cbv zeta. cbn [res out final].
    rewrite written_app, Hpre, HCs. cbn [app].
    rewrite <- zip_with_take_l, fst_zip.
    + unfold range. rewrite <- fmap_take, take_seq. f_equal. f_equal. lia.
    + rewrite length_take. lia.
  - intros a4' nt' H4' E4'.
    assert (a4' = a4) as -> by congruence.
    assert (nt' = nt) as -> by congruence. done.
Qed.

End WrittenNames.

Lemma written_names_are_first_trials_witness :
  py_int "1" = Some 1%Z ∧
  ∃ k, (written (out (run WeightedSampler.draw
          (small_world ["T.mtx"; "micro.dat"; "1"; "2"; "out"]
                       loop1 None true halves)))).*1
       = out_name "out" 1 <$> seq 0 k ∧
       ∀ a4 ntrials,
         argv (small_world ["T.mtx"; "micro.dat"; "1"; "2"; "out"]
                           loop1 None true halves) !! 4 = Some a4 →
         py_int a4 = Some ntrials → k ≤ Z.to_nat ntrials.
Proof.
  split; [reflexivity|].
  apply (written_names_are_first_trials WeightedSampler.draw
           (small_world ["T.mtx"; "micro.dat"; "1"; "2"; "out"]
                        loop1 None true halves) "1" 1%Z "out");
    reflexivity.
Defined.

(** ** What the script reads and what it pickles *)

Section FilesTouched.

Variable draw_index : list Q → rng → result nat * rng.

(** A run that reaches the trial loop, with the events of lines 67-93
    spelled out. *)
Lemma run_of_sampling_reached_exact w microTFn microstatesFn outName T
    nsamples ntrials :
  sampling_reached w microTFn microstatesFn outName T nsamples ntrials →
  ∃ jumps mInfo evs,
    run draw_index w
    = Outcome
        (res (trials draw_index w jumps (nrows T) outName nsamples ntrials
                     (seed w)))
        ([MMRead microTFn; Print (MsgMatrix T);
          LoadMicrostates microstatesFn; Print (MsgMInfo mInfo)]
         ++ evs
         ++ out (trials draw_index w jumps (nrows T) outName nsamples
                        ntrials (seed w)))
        (final (trials draw_index w jumps (nrows T) outName nsamples ntrials
                       (seed w))) ∧
    if path_exists w (microTFn +:+ ".jumps")
    then jumps_file w (microTFn +:+ ".jumps") = Some jumps ∧
         evs = [Print (MsgReadingJumps (microTFn +:+ ".jumps"));
                PickleLoad (microTFn +:+ ".jumps"); Print MsgReadDone]
    else (∀ i, jumps !! i =
               if decide (i < nrows T) then Some (build T i) else None) ∧
         evs = Print MsgMakingJumps
               :: (Print <$> ((λ i, MsgJump i (build T i))
                              <$> filter (λ i, i mod 100 = 0)
                                         (seq 0 (nrows T))))
               ++ [Print (MsgPickling (microTFn +:+ ".jumps"));
                   PickleDump (microTFn +:+ ".jumps") jumps;
                   Print MsgDone].
Proof.
  intros Hreach.
  destruct (run_of_sampling_reached draw_index _ _ _ _ _ _ _ Hreach)
    as (jumps & mInfo & evs & _ & Hj & Hrun).
  destruct Hreach as (_ & _ & _ & _ & Hcache).
  destruct (get_jumps_exact w T (nrows T) _ (seed w) Hcache)
    as (jumps2 & evs2 & Hj2 & Hcase).
  rewrite Hj in Hj2. injection Hj2 as <- <-.
  by exists jumps, mInfo, evs.
Qed.

(** X9: a run that reaches the trial loop pickles the jump tables exactly
    once when there was no cache file, to [<matrix>.jumps], before any
    count matrix is written, and what it pickles is the table built from
    row [i] for every state [i] of the matrix and nothing else; when the
    cache file was there, the run never pickles. *)
Theorem cache_saved_once w microTFn microstatesFn outName T
    nsamples ntrials :
  sampling_reached w microTFn microstatesFn outName T nsamples ntrials →
  if path_exists w (microTFn +:+ ".jumps")
  then dumps (out (run draw_index w)) = []
  else ∃ jumps pre post,
         dumps (out (run draw_index w)) = [(microTFn +:+ ".jumps", jumps)] ∧
         (∀ i, jumps !! i =
               if decide (i < nrows T) then Some (build T i) else None) ∧
         out (run draw_index w)
         = pre ++ PickleDump (microTFn +:+ ".jumps") jumps :: post ∧
         written pre = [].
Proof.
  intros Hreach.
  destruct (run_of_sampling_reached_exact _ _ _ _ _ _ _ Hreach)
    as (jumps & mInfo & evs & Hrun & Hcase).
  pose proof (trials_dumps draw_index w jumps (nrows T) outName nsamples
                ntrials (seed w)) as Hd.
  destruct (path_exists w (microTFn +:+ ".jumps")).
  - destruct Hcase as [_ ->]. rewrite Hrun. cbn [out].
    rewrite !dumps_app, Hd. reflexivity.
  - destruct Hcase as [Hl ->].
    exists jumps,
      ([MMRead microTFn; Print (MsgMatrix T);
        LoadMicrostates microstatesFn; Print (MsgMInfo mInfo)]
       ++ Print MsgMakingJumps
          :: (Print <$> ((λ i, MsgJump i (build T i))
                         <$> filter (λ i, i mod 100 = 0) (seq 0 (nrows T))))
          ++ [Print (MsgPickling (microTFn +:+ ".jumps"))]),
      (Print MsgDone
       :: out (trials draw_index w jumps (nrows T) outName nsamples ntrials
                      (seed w))).
    rewrite Hrun. cbn [out]. split; [|split; [done|split]].
    + rewrite !dumps_app, Hd. cbn [app].
      change (dumps (Print MsgMakingJumps :: ?l)) with (dumps l).
      by rewrite dumps_app, dumps_prints.
    + rewrite <- !app_assoc. cbn [app]. do 5 f_equal.
      by rewrite <- !app_assoc.
    + rewrite written_app. cbn [app].
      change (written (Print MsgMakingJumps :: ?l)) with (written l).
      by rewrite written_app, written_prints.
Qed.

(** X10: a run that reaches the trial loop has read the matrix file, then
    the microstate file, then the cache file if there is one, and no
    other file; the trial loop itself reads nothing. *)
Theorem files_read_in_order w microTFn microstatesFn outName T
    nsamples ntrials :
  sampling_reached w microTFn microstatesFn outName T nsamples ntrials →
  reads (out (run draw_index w))
  = [microTFn; microstatesFn]
    ++ (if path_exists w (microTFn +:+ ".jumps")
        then [microTFn +:+ ".jumps"] else []).
Proof.
  intros Hreach.
  destruct (run_of_sampling_reached_exact _ _ _ _ _ _ _ Hreach)
    as (jumps & mInfo & evs & Hrun & Hcase).
  pose proof (trials_reads draw_index w jumps (nrows T) outName nsamples
                ntrials (seed w)) as Hr.
  rewrite Hrun. cbn [out]. rewrite !reads_app, Hr.
  destruct (path_exists w (microTFn +:+ ".jumps")).
  - destruct Hcase as [_ ->]. reflexivity.
  - destruct Hcase as [_ ->]. cbn [app].
    change (reads (MMRead microTFn :: Print (MsgMatrix T)
                   :: LoadMicrostates microstatesFn
                   :: Print (MsgMInfo mInfo) :: [])) 
      with [microTFn; microstatesFn].
    change (reads (Print MsgMakingJumps :: ?l)) with (reads l).
    by rewrite reads_app, reads_prints.
Qed.

End FilesTouched.

Lemma cache_saved_once_witness :
  sampling_reached (small_world ["T.mtx"; "micro.dat"; "1"; "1"; "out"]
                                loop1 None true halves)
                   "T.mtx" "micro.dat" "out" loop1 1 1 ∧
  ∃ jumps pre post,
    dumps (out (run WeightedSampler.draw
       (small_world ["T.mtx"; "micro.dat"; "1"; "1"; "out"]
                    loop1 None true halves)))
    = [("T.mtx" +:+ ".jumps", jumps)] ∧
    (∀ i, jumps !! i =
          if decide (i < nrows loop1) then Some (build loop1 i) else None) ∧
    out (run WeightedSampler.draw
       (small_world ["T.mtx"; "micro.dat"; "1"; "1"; "out"]
                    loop1 None true halves))
    = pre ++ PickleDump ("T.mtx" +:+ ".jumps") jumps :: post ∧
    written pre = [].
Proof.
  split; [apply small_world_reaches; reflexivity|].
  apply (cache_saved_once WeightedSampler.draw
           (small_world ["T.mtx"; "micro.dat"; "1"; "1"; "out"]
                        loop1 None true halves)
           "T.mtx" "micro.dat" "out" loop1 1%Z 1%Z).
  apply small_world_reaches; reflexivity.
Defined.

Lemma files_read_in_order_witness :
  reads (out (run WeightedSampler.draw
     (small_world ["T.mtx"; "micro.dat"; "1"; "1"; "out"]
                  identity2 (Some swapped_jumps) true halves)))
  = ["T.mtx"; "micro.dat"; "T.mtx.jumps"].
Proof.
  apply (files_read_in_order WeightedSampler.draw
           (small_world ["T.mtx"; "micro.dat"; "1"; "1"; "out"]
                        identity2 (Some swapped_jumps) true halves)
           "T.mtx" "micro.dat" "out" identity2 1%Z 1%Z).
  apply small_world_reaches; reflexivity.
Defined.

(** ** The progress lines *)

Section Progress.

Variable draw_index : list Q → rng → result nat * rng.

Lemma trial_loop_lines w jumps NumStates outName nsamples a n C tc g v :
  res (foldM (trial_body draw_index w jumps (replicate NumStates nsamples)
                         NumStates outName nsamples)
             (seq a n) (C, tc) g) = Ok v →
  sampled_lines
    (out (foldM (trial_body draw_index w jumps (replicate NumStates nsamples)
                            NumStates outName nsamples)
                (seq a n) (C, tc) g))
  = (λ t, (Z.of_nat t * nsamples,
           tc + (Z.of_nat (t - a) + 1) * (Z.of_nat NumStates * nsamples))%Z)
    <$> seq a n.
Proof.
  revert a C tc g. induction n as [|n IH]; intros a C tc g; [done|].
  simpl seq. rewrite !foldM_cons.
  pose proof (trial_body_exact draw_index w jumps NumStates outName nsamples
                C tc a g) as Hbody. cbv zeta in Hbody.
  rewrite sum_replicate in Hbody.
  set (sa := sample_all _ _ _ _ _ _) in Hbody.
  intros Hok. apply bind_res_ok_inv in Hok as ([C1 tc1] & Hb & Hrest).
  rewrite Hbody in Hb, Hrest.
  destruct (res sa) as [C'|h]; [|done].
  destruct (decide (NumStates = 0)); [done|].
  destruct (writable w (out_name outName nsamples a)); [|done].
  cbn [res final] in Hb, Hrest. injection Hb as <- <-.
  rewrite (bind_ok _ _ _ (C', (tc + Z.of_nat NumStates * nsamples)%Z))
    by (by rewrite Hbody).
  rewrite Hbody. cbn [res out final app].
  change (sampled_lines (Print (MsgSampled ?x ?y) :: MMWrite ?f ?c :: ?l))
    with ((x, y) :: sampled_lines l).
  rewrite (IH _ _ _ _ Hrest). cbn [fmap list_fmap]. f_equal.
  - f_equal. rewrite Nat.sub_diag. lia.
  - apply list_fmap_ext. intros k t [-> Hk]%lookup_seq. f_equal.
    replace (S a + k - a) with (S (S a + k - S a)) by lia. lia.
Qed.

(** X11: in a run that reaches the trial loop and ends normally, trial
    [t] prints one progress line; its first number is [t * nsamples] (the
    samples per state of the trials before this one, not counting the one
    just done) and its second, [TotalCounts], is
    [(t + 1) * N * nsamples]. *)
Theorem progress_lines_of_a_run w microTFn microstatesFn outName T
    nsamples ntrials :
  sampling_reached w microTFn microstatesFn outName T nsamples ntrials →
  res (run draw_index w) = Ok tt →
  sampled_lines (out (run draw_index w))
  = (λ t, (Z.of_nat t * nsamples,
           (Z.of_nat t + 1) * (Z.of_nat (nrows T) * nsamples))%Z)
    <$> range ntrials.
Proof.
  intros Hreach Hok.
  destruct (run_of_sampling_reached_exact draw_index _ _ _ _ _ _ _ Hreach)
    as (jumps & mInfo & evs & Hrun & Hcase).
  rewrite Hrun in Hok |- *. cbn [res out] in Hok |- *.
  rewrite !sampled_lines_app.
  assert (sampled_lines evs = []) as ->.
  { destruct (path_exists w (microTFn +:+ ".jumps"));
      destruct Hcase as [_ ->]; [done|].
    change (sampled_lines (Print MsgMakingJumps :: ?l))
      with (sampled_lines l).
    by rewrite sampled_lines_app, sampled_lines_jump_prints. }
  cbn [app sampled_lines omap list_omap].
  unfold trials in Hok |- *. set (loop := foldM _ _ _) in *.
  destruct (res (loop (seed w))) as [v|h] eqn:Hloop.
  2:{ unfold bind in Hok. by rewrite Hloop in Hok. }
  unfold bind. rewrite Hloop. cbn [out ret]. rewrite app_nil_r.
  subst loop. unfold range in *.
  rewrite (trial_loop_lines _ _ _ _ _ _ _ _ _ _ _ Hloop).
  apply list_fmap_ext. intros k t [-> Hk]%lookup_seq. f_equal.
  replace (0 + k - 0) with k by lia. lia.
Qed.

End Progress.

Lemma progress_lines_of_a_run_witness :
  res (run WeightedSampler.draw
         (small_world ["T.mtx"; "micro.dat"; "5"; "3"; "out"]
                      cycle3 None true halves)) = Ok tt ∧
  sampled_lines (out (run WeightedSampler.draw
         (small_world ["T.mtx"; "micro.dat"; "5"; "3"; "out"]
                      cycle3 None true halves)))
  = (λ t, (Z.of_nat t * 5, (Z.of_nat t + 1) * (Z.of_nat (nrows cycle3) * 5))%Z)
    <$> range 3.
Proof.
  split; [vm_compute; reflexivity|].
  apply (progress_lines_of_a_run WeightedSampler.draw
           (small_world ["T.mtx"; "micro.dat"; "5"; "3"; "out"]
                        cycle3 None true halves)
           "T.mtx" "micro.dat" "out" cycle3 5%Z 3%Z).
  - apply small_world_reaches; reflexivity.
  - vm_compute. reflexivity.
Defined.

Example progress_lines_three_trials :
  sampled_lines (out (run WeightedSampler.draw
         (small_world ["T.mtx"; "micro.dat"; "5"; "3"; "out"]
                      cycle3 None true halves)))
  = [(0, 15); (5, 30); (10, 45)]%Z.
Proof. vm_compute. reflexivity. Qed.

(** ** The builder and its tables *)

(** X12: building the tables never fails and never touches the random
    source; it prints one progress line for every hundredth state (0, 100,
    200, ...), in order, each showing the state and the table just built
    for it, and nothing else. *)
Theorem build_all_progress_lines T NumStates g :
  ∃ jumps,
    build_all T NumStates g
    = Outcome (Ok jumps)
        (Print <$> ((λ i, MsgJump i (build T i))
                    <$> filter (λ i, i mod 100 = 0) (seq 0 NumStates))) g.
Proof.
  destruct (build_all_spec T NumStates g) as (jumps & msgs & Heq & _).
  exists jumps.
  pose proof (build_loop_progress T ∅ 0 NumStates g) as Hprog.
  fold (build_all T NumStates) in Hprog. rewrite Heq in Hprog |- *.
  cbn [out] in Hprog. by rewrite Hprog.
Qed.

Lemma filter_seq_sorted (P : nat → Prop) `{!∀ x, Decision (P x)} a n :
  StronglySorted lt (filter P (seq a n)).
Proof.
  revert a. induction n as [|n IH]; intros a; [constructor|].
  simpl seq. rewrite filter_cons. destruct (decide (P a)); [|apply IH].
  constructor; [apply IH|]. apply Forall_forall.
  intros x [_ [Hx _]%elem_of_seq]%list_elem_of_filter. lia.
Qed.

(** X13: the jump table built from a row of a well-formed matrix is a
    pair of sequences of equal length; its destinations are strictly
    increasing column indices of the matrix (so no destination occurs
    twice), and none of its weights is zero. *)
Theorem jump_table_invariant T i :
  wf_lil T = true →
  length (build T i).2 = length (build T i).1 ∧
  StronglySorted lt (build T i).1 ∧
  Forall (λ j, j < ncols T) (build T i).1 ∧
  Forall (λ v, is_nonzero v = true) (build T i).2.
Proof.
  intros Hwf. rewrite (build_spec_build T i Hwf).
  unfold spec_build, nonzero_columns. cbn [fst snd].
  split; [by rewrite length_fmap|]. split; [apply filter_seq_sorted|].
  split.
  - apply Forall_forall.
    intros j [_ [_ Hj]%elem_of_seq]%list_elem_of_filter. lia.
  - apply Forall_fmap, Forall_forall.
    by intros j [Hnz _]%list_elem_of_filter.
Qed.

Lemma jump_table_invariant_witness :
  wf_lil cycle3 = true ∧
  length (build cycle3 1).2 = length (build cycle3 1).1 ∧
  StronglySorted lt (build cycle3 1).1 ∧
  Forall (λ j, j < ncols cycle3) (build cycle3 1).1 ∧
  Forall (λ v, is_nonzero v = true) (build cycle3 1).2.
Proof.
  split; [reflexivity|]. apply (jump_table_invariant cycle3 1). reflexivity.
Defined.

(** ** A second run on the saved cache *)

Section SecondRun.

Variable draw_index : list Q → rng → result nat * rng.

Lemma sampling_reached_with_cache w microTFn microstatesFn outName T
    nsamples ntrials jumps :
  sampling_reached w microTFn microstatesFn outName T nsamples ntrials →
  sampling_reached (with_cache w (microTFn +:+ ".jumps") jumps)
                   microTFn microstatesFn outName T nsamples ntrials.
Proof.
  intros (Hargs & Hex & HT & HM & _). unfold sampling_reached.
  cbn [argv path_exists mm_file microstate_file jumps_file with_cache].
  split; [done|]. split; [by case_decide|]. split; [done|]. split; [done|].
  rewrite !decide_True by done. by eexists.
Qed.

(** X14: the cache round trip over two runs.  A run that finds no cache
    file and reaches the trial loop pickles its tables; a second run in the
    same surroundings, with the cache file now holding what the first one
    pickled and with the same random source, ends the same way, leaves the
    random source in the same state and writes the same count matrices
    under the same names. *)
Theorem second_run_from_saved_cache w microTFn microstatesFn outName T
    nsamples ntrials :
  sampling_reached w microTFn microstatesFn outName T nsamples ntrials →
  path_exists w (microTFn +:+ ".jumps") = false →
  ∃ jumps,
    dumps (out (run draw_index w)) = [(microTFn +:+ ".jumps", jumps)] ∧
    res (run draw_index (with_cache w (microTFn +:+ ".jumps") jumps))
    = res (run draw_index w) ∧
    written (out (run draw_index
                    (with_cache w (microTFn +:+ ".jumps") jumps)))
    = written (out (run draw_index w)) ∧
    final (run draw_index (with_cache w (microTFn +:+ ".jumps") jumps))
    = final (run draw_index w).
Proof.
  intros Hreach Hnocache.
  pose proof (cache_dump := trials_dumps draw_index).
  destruct (run_of_sampling_reached_exact draw_index _ _ _ _ _ _ _ Hreach)
    as (jumps & mInfo & evs & Hrun & Hcase).
  rewrite Hnocache in Hcase. destruct Hcase as [_ Hevs].
  exists jumps.
  pose proof (sampling_reached_with_cache _ _ _ _ _ _ _ jumps Hreach)
    as Hreach'.
  destruct (run_of_sampling_reached_exact draw_index _ _ _ _ _ _ _ Hreach')
    as (jumps' & mInfo' & evs' & Hrun' & Hcase').
  cbn [path_exists jumps_file with_cache] in Hcase'.
  rewrite !decide_True in Hcase' by done.
  destruct Hcase' as [[= <-] Hevs'].
  change (trials draw_index (with_cache w (microTFn +:+ ".jumps") jumps))
    with (trials draw_index w) in Hrun'.
  change (seed (with_cache w (microTFn +:+ ".jumps") jumps))
    with (seed w) in Hrun'.
  rewrite Hrun, Hrun'. cbn [res out final].
  split; [|split; [done|split; [|done]]].
  - rewrite Hevs, !dumps_app, cache_dump. cbn [app].
    change (dumps (Print MsgMakingJumps :: ?l)) with (dumps l).
    by rewrite dumps_app, dumps_prints.
  - rewrite Hevs, Hevs', !written_app. cbn [app].
    change (written (Print MsgMakingJumps :: ?l)) with (written l).
    by rewrite written_app, written_prints.
Qed.

End SecondRun.

Lemma second_run_from_saved_cache_witness :
  path_exists (small_world ["T.mtx"; "micro.dat"; "2"; "2"; "out"]
                           cycle3 None true halves) ("T.mtx" +:+ ".jumps")
  = false ∧
  ∃ jumps,
    dumps (out (run WeightedSampler.draw
       (small_world ["T.mtx"; "micro.dat"; "2"; "2"; "out"]
                    cycle3 None true halves)))
    = [("T.mtx" +:+ ".jumps", jumps)] ∧
    res (run WeightedSampler.draw
           (with_cache (small_world ["T.mtx"; "micro.dat"; "2"; "2"; "out"]
                                    cycle3 None true halves)
                       ("T.mtx" +:+ ".jumps") jumps))
    = res (run WeightedSampler.draw
             (small_world ["T.mtx"; "micro.dat"; "2"; "2"; "out"]
                          cycle3 None true halves)) ∧
    written (out (run WeightedSampler.draw
           (with_cache (small_world ["T.mtx"; "micro.dat"; "2"; "2"; "out"]
                                    cycle3 None true halves)
                       ("T.mtx" +:+ ".jumps") jumps)))
    = written (out (run WeightedSampler.draw
             (small_world ["T.mtx"; "micro.dat"; "2"; "2"; "out"]
                          cycle3 None true halves))) ∧
    final (run WeightedSampler.draw
           (with_cache (small_world ["T.mtx"; "micro.dat"; "2"; "2"; "out"]
                                    cycle3 None true halves)
                       ("T.mtx" +:+ ".jumps") jumps))
    = final (run WeightedSampler.draw
             (small_world ["T.mtx"; "micro.dat"; "2"; "2"; "out"]
                          cycle3 None true halves)).
Proof.
  split; [reflexivity|].
  apply (second_run_from_saved_cache WeightedSampler.draw
           (small_world ["T.mtx"; "micro.dat"; "2"; "2"; "out"]
                        cycle3 None true halves)
           "T.mtx" "micro.dat" "out" cycle3 2%Z 2%Z).
  - apply small_world_reaches; reflexivity.
  - reflexivity.
Defined.


(** ** A cache file that does not load *)

Section UnreadableCache.

Variable draw_index : list Q → rng → result nat * rng.

(** X15: a cache file that is there but does not unpickle is not
    replaced by freshly built tables: the run ends with the [IOError] of
    the load, right after announcing the reading; nothing is built,
    pickled, drawn or written. *)
Theorem unreadable_cache_aborts w prog microTFn microstatesFn a3 a4 outName
    rest nsamples ntrials T mInfo :
  argv w = prog :: microTFn :: microstatesFn :: a3 :: a4 :: outName :: rest →
  py_int a3 = Some nsamples → py_int a4 = Some ntrials →
  path_exists w microTFn = true → mm_file w microTFn = Some T →
  microstate_file w microstatesFn = Some mInfo →
  path_exists w (microTFn +:+ ".jumps") = true →
  jumps_file w (microTFn +:+ ".jumps") = None →
  run draw_index w
  = Outcome (Halt (Raise IOError))
      [MMRead microTFn; Print (MsgMatrix T);
       LoadMicrostates microstatesFn; Print (MsgMInfo mInfo);
       Print (MsgReadingJumps (microTFn +:+ ".jumps"));
       PickleLoad (microTFn +:+ ".jumps")]
      (seed w).
Proof.
  intros Hargv E3 E4 Hex HT HM Hcache Hnone. unfold run.
  rewrite (main_eq _ _ _ _ _ _ _ _ _ _ Hargv).
  unfold int. rewrite E3, bind_ret_l, E4, bind_ret_l.
  pose proof (read_matrix_spec w microTFn (seed w)) as HT'.
  rewrite Hex, HT in HT'.
  rewrite (bind_ok _ _ _ T) by (by rewrite HT'). rewrite HT'.
  cbn [res out final].
  pose proof (read_microstates_spec w microstatesFn (seed w)) as HM'.
  rewrite HM in HM'.
  rewrite (bind_ok _ _ _ tt) by (by rewrite HM'). rewrite HM'.
  cbn [res out final].
  assert (get_jumps w T (nrows T) (microTFn +:+ ".jumps") (seed w)
          = Outcome (Halt (Raise IOError))
              [Print (MsgReadingJumps (microTFn +:+ ".jumps"));
               PickleLoad (microTFn +:+ ".jumps")] (seed w)) as Hj.
  { unfold get_jumps, load_jumps. by rewrite Hcache, Hnone. }
  rewrite (bind_halt _ _ _ (Raise IOError)) by (by rewrite Hj).
  by rewrite Hj.
Qed.

End UnreadableCache.

Lemma unreadable_cache_aborts_witness :
  jumps_file {| argv := ["sample.py"; "T.mtx"; "micro.dat"; "1"; "1"; "out"];
                path_exists := λ _, true;
                mm_file := λ _, Some loop1;
                microstate_file := λ _, Some "mInfo";
                jumps_file := λ _, None;
                writable := λ _, true;
                seed := {| tape := halves; pos := 0 |} |}
             ("T.mtx" +:+ ".jumps") = None ∧
  run WeightedSampler.draw
      {| argv := ["sample.py"; "T.mtx"; "micro.dat"; "1"; "1"; "out"];
         path_exists := λ _, true;
         mm_file := λ _, Some loop1;
         microstate_file := λ _, Some "mInfo";
         jumps_file := λ _, None;
         writable := λ _, true;
         seed := {| tape := halves; pos := 0 |} |}
  = Outcome (Halt (Raise IOError))
      [MMRead "T.mtx"; Print (MsgMatrix loop1);
       LoadMicrostates "micro.dat"; Print (MsgMInfo "mInfo");
       Print (MsgReadingJumps ("T.mtx" +:+ ".jumps"));
       PickleLoad ("T.mtx" +:+ ".jumps")]
      {| tape := halves; pos := 0 |}.
Proof.
  split; [reflexivity|].
  apply (unreadable_cache_aborts WeightedSampler.draw
           {| argv := ["sample.py"; "T.mtx"; "micro.dat"; "1"; "1"; "out"];
              path_exists := λ _, true;
              mm_file := λ _, Some loop1;
              microstate_file := λ _, Some "mInfo";
              jumps_file := λ _, None;
              writable := λ _, true;
              seed := {| tape := halves; pos := 0 |} |}
           "sample.py" "T.mtx" "micro.dat" "1" "1" "out" [] 1%Z 1%Z
           loop1 "mInfo"); reflexivity.
Defined.

(** ** The microstate file *)

Section Microstates.

Variable draw_index : list Q → rng → result nat * rng.

(** X16: the microstate information is loaded and printed, and used for
    nothing else: two runs that differ only in what the microstate file
    loads as end the same way, draw the same values and write the same
    count matrices under the same names. *)
Theorem microstates_do_not_matter w microstatesFn mInfo1 mInfo2 :
  argv w !! 2 = Some microstatesFn →
  res (run draw_index (with_microstates w microstatesFn mInfo1))
  = res (run draw_index (with_microstates w microstatesFn mInfo2)) ∧
  written (out (run draw_index (with_microstates w microstatesFn mInfo1)))
  = written (out (run draw_index (with_microstates w microstatesFn mInfo2))) ∧
  final (run draw_index (with_microstates w microstatesFn mInfo1))
  = final (run draw_index (with_microstates w microstatesFn mInfo2)).
Proof.
  intros H2. unfold run.
  destruct (decide (length (argv w) < 6)) as [Hlen|Hlen].
  { unfold main. cbn [argv with_microstates].
    by rewrite !decide_True by done. }
  destruct (argv w)
    as [|prog [|microTFn [|fn [|a3 [|a4 [|outName rest]]]]]]
    eqn:Hargv; simpl in Hlen; try lia.
  injection H2 as ->.
  rewrite (main_eq _ (with_microstates w microstatesFn mInfo1)
             _ _ _ _ _ _ _ _ Hargv).
  rewrite (main_eq _ (with_microstates w microstatesFn mInfo2)
             _ _ _ _ _ _ _ _ Hargv).
  unfold int.
  destruct (py_int a3) as [ns|]; [rewrite !bind_ret_l|done].
  destruct (py_int a4) as [nt|]; [rewrite !bind_ret_l|done].
  cbn [seed with_microstates].
  change (read_matrix (with_microstates w microstatesFn ?m))
    with (read_matrix w).
  pose proof (read_matrix_spec w microTFn (seed w)) as HT.
  destruct (path_exists w microTFn).
  2:{ rewrite !(bind_halt _ _ _ (Exit 1)) by (by rewrite HT).
      by rewrite HT. }
  destruct (mm_file w microTFn) as [T|].
  2:{ rewrite !(bind_halt _ _ _ (Raise IOError)) by (by rewrite HT).
      by rewrite HT. }
  rewrite !(bind_ok _ _ _ T) by (by rewrite HT). rewrite HT.
  cbn [res out final].
  pose proof (read_microstates_spec
                (with_microstates w microstatesFn mInfo1) microstatesFn
                (seed w)) as HM1.
  pose proof (read_microstates_spec
                (with_microstates w microstatesFn mInfo2) microstatesFn
                (seed w)) as HM2.
  cbn [microstate_file with_microstates] in HM1, HM2.
  rewrite decide_True in HM1, HM2 by done.
  rewrite (bind_ok _ _ _ tt) by (by rewrite HM1).
  rewrite (bind_ok _ _ _ tt) by (by rewrite HM2).
  rewrite HM1, HM2. cbn [res out final].
  change (get_jumps (with_microstates w microstatesFn ?m))
    with (get_jumps w).
  change (trials draw_index (with_microstates w microstatesFn ?m))
    with (trials draw_index w).
  done.
Qed.

End Microstates.

Lemma microstates_do_not_matter_witness :
  argv (small_world ["T.mtx"; "micro.dat"; "2"; "1"; "out"]
                    cycle3 None true halves) !! 2 = Some "micro.dat" ∧
  written (out (run WeightedSampler.draw
     (with_microstates (small_world ["T.mtx"; "micro.dat"; "2"; "1"; "out"]
                                    cycle3 None true halves)
                       "micro.dat" "first")))
  = written (out (run WeightedSampler.draw
     (with_microstates (small_world ["T.mtx"; "micro.dat"; "2"; "1"; "out"]
                                    cycle3 None true halves)
                       "micro.dat" "second"))).
Proof.
  split; [reflexivity|].
  apply (microstates_do_not_matter WeightedSampler.draw
           (small_world ["T.mtx"; "micro.dat"; "2"; "1"; "out"]
                        cycle3 None true halves)
           "micro.dat" "first" "second").
  reflexivity.
Defined.

(** ** What the samples of one state add to the counts *)

Section Histogram.

Variable draw_index : list Q → rng → result nat * rng.

Lemma sample_loop_histogram i pj jp l C g C' js0 :
  res (foldM (λ C _, draw_step draw_index i pj jp C) l C g) = Ok C' →
  ∃ js,
    foldM (λ js (_ : nat),
             let* k := call_draw_index draw_index jp in
             let* j := index pj k in
             ret (js ++ [j])) l js0 g
    = Outcome (Ok (js0 ++ js)) []
        (final (foldM (λ C _, draw_step draw_index i pj jp C) l C g)) ∧
    length js = length l ∧
    Forall (λ j, j ∈ pj) js ∧
    ∀ a b, count_at C' a b
           = (count_at C a b
              + if decide (a = i)
                then Z.of_nat (length (filter (λ j, j = b) js))
                else 0)%Z.
Proof.
  revert C g js0. induction l as [|x l IH]; intros C g js0.
  - simpl. intros [= <-]. exists []. rewrite app_nil_r.
    repeat split; [constructor|]. intros a b. case_decide; simpl; lia.
  - rewrite !foldM_cons. intros (C1 & Hstep & Hrest)%bind_res_ok_inv.
    rewrite (bind_ok _ _ _ _ Hstep). cbn [res out final].
    destruct (draw_step_inv _ _ _ _ _ _ _ Hstep)
      as (k & j & g1 & Hdraw & Hj & Hg1 & Hinc).
    rewrite Hg1 in Hrest |- *.
    destruct (IH _ _ (js0 ++ [j]) Hrest) as (js & Heq & Hlen & Hall & Hcnt).
    exists (j :: js).
    assert ((let* k := call_draw_index draw_index jp in
             let* j := index pj k in ret (js0 ++ [j])) g
            = Outcome (Ok (js0 ++ [j])) [] g1) as Hbody.
    { unfold call_draw_index, bind. rewrite Hdraw. cbn [res out final].
      unfold index. by rewrite Hj. }
    rewrite (bind_ok _ _ g (js0 ++ [j])); [|by rewrite Hbody].
    rewrite Hbody. cbn [res out final]. rewrite Heq. cbn [res out final app].
    split; [by rewrite <- app_assoc|]. split; [simpl; lia|].
    split; [constructor; [by eapply list_elem_of_lookup_2|done]|].
    intros a b. rewrite Hcnt.
    assert (res (increment C i j g) = Ok C1) as Hinc' by (by rewrite Hinc).
    rewrite (increment_count_at _ _ _ _ _ a b Hinc').
    rewrite filter_cons.
    destruct (decide (a = i)) as [->|Hne].
    + destruct (decide (j = b)) as [->|Hjb].
      * rewrite decide_True by done. simpl length. lia.
      * rewrite decide_False by congruence. lia.
    + rewrite decide_False by congruence. lia.
Qed.

(** X17: when the loop of lines 110-112 completes for state [i], it has
    drawn [max(0, n)] destinations, all taken from [possible_j], and the
    counts it hands back are those it was given plus, in row [i], the
    number of times each destination was drawn; no other row changes. *)
Theorem sample_state_adds_histogram i possible_j jprobs n C g C' :
  res (sample_state draw_index i possible_j jprobs n C g) = Ok C' →
  ∃ js,
    draws draw_index possible_j jprobs n g
    = Outcome (Ok js) []
        (final (sample_state draw_index i possible_j jprobs n C g)) ∧
    length js = Z.to_nat n ∧
    Forall (λ j, j ∈ possible_j) js ∧
    ∀ a b, count_at C' a b
           = (count_at C a b
              + if decide (a = i)
                then Z.of_nat (length (filter (λ j, j = b) js))
                else 0)%Z.
Proof.
  unfold sample_state, draws. intros Hok.
  destruct (sample_loop_histogram _ _ _ _ _ _ _ [] Hok)
    as (js & Heq & Hlen & Hall & Hcnt).
  exists js. split; [exact Heq|]. split; [|done].
  rewrite Hlen. unfold range. by rewrite length_seq.
Qed.

End Histogram.

Lemma sample_state_adds_histogram_witness :
  res (sample_state WeightedSampler.draw 0 [1; 2] [(1 # 4)%Q; (3 # 4)%Q] 3
         (new_counts 3 3) {| tape := λ n, (Z.of_nat n # 3)%Q; pos := 0 |})
  = Ok {| cshape := (3, 3); counts := {[(0, 1) := 1%Z; (0, 2) := 2%Z]} |} ∧
  ∃ js,
    draws WeightedSampler.draw [1; 2] [(1 # 4)%Q; (3 # 4)%Q] 3
          {| tape := λ n, (Z.of_nat n # 3)%Q; pos := 0 |}
    = Outcome (Ok js) []
        (final (sample_state WeightedSampler.draw 0 [1; 2]
                  [(1 # 4)%Q; (3 # 4)%Q] 3 (new_counts 3 3)
                  {| tape := λ n, (Z.of_nat n # 3)%Q; pos := 0 |})) ∧
    length js = Z.to_nat 3 ∧
    Forall (λ j, j ∈ [1; 2]) js ∧
    ∀ a b,
      count_at {| cshape := (3, 3);
                  counts := {[(0, 1) := 1%Z; (0, 2) := 2%Z]} |} a b
      = (count_at (new_counts 3 3) a b
         + if decide (a = 0%nat)
           then Z.of_nat (length (filter (λ j, j = b) js))
           else 0)%Z.
Proof.
  assert (res (sample_state WeightedSampler.draw 0 [1; 2]
                 [(1 # 4)%Q; (3 # 4)%Q] 3 (new_counts 3 3)
                 {| tape := λ n, (Z.of_nat n # 3)%Q; pos := 0 |})
          = Ok {| cshape := (3, 3);
                  counts := {[(0, 1) := 1%Z; (0, 2) := 2%Z]} |}) as Hres.
  { vm_compute. reflexivity. }
  split; [exact Hres|].
  apply (sample_state_adds_histogram WeightedSampler.draw 0 [1; 2]
           [(1 # 4)%Q; (3 # 4)%Q] 3 (new_counts 3 3)
           {| tape := λ n, (Z.of_nat n # 3)%Q; pos := 0 |}).
  exact Hres.
Defined.
